(** * wpr: interactive file selection and prompt bundling

    A shallow embedding of [wpr.js]: the directory scan under the
    blacklist/whitelist rules ([getAllFiles]), the derivation of the
    output file name ([generateFilenameFromPrompt]), the selection
    loop of [main] and the assembly of the Markdown document.

    Strings are sequences of characters below 256 (the code units of
    JavaScript strings in that range), and the string primitives are
    modelled on them. *)

From Stdlib Require Import Ascii String List Bool Arith Lia.
From stdpp Require Import base option list strings.

(** ** JavaScript string primitives *)
Module Js.

(** [s.startsWith(w)] *)
Fixpoint startsWith (s w : string) {struct w} : bool :=
  match w, s with
  | EmptyString, _ => true
  | String _ _, EmptyString => false
  | String a w', String b s' => Ascii.eqb a b && startsWith s' w'
  end.

(** [s.includes(b)]: [b] occurs at some position of [s]. *)
Fixpoint includes (s b : string) : bool :=
  startsWith s b ||
  match s with
  | EmptyString => false
  | String _ s' => includes s' b
  end.

(** The last character of [s] is [c]. *)
Fixpoint endsWithChar (s : string) (c : ascii) : bool :=
  match s with
  | EmptyString => false
  | String a EmptyString => Ascii.eqb a c
  | String _ s' => endsWithChar s' c
  end.

Fixpoint mapChars (f : ascii -> ascii) (s : string) : string :=
  match s with
  | EmptyString => EmptyString
  | String c s' => String (f c) (mapChars f s')
  end.

Definition between (lo hi : nat) (c : ascii) : bool :=
  (lo <=? nat_of_ascii c) && (nat_of_ascii c <=? hi).

(** Lower case of a character below 256: A-Z, and the accented capitals
    192-214 and 216-222, move up by 32. *)
Definition toLowerChar (c : ascii) : ascii :=
  if between 65 90 c || between 192 214 c || between 216 222 c
  then ascii_of_nat (nat_of_ascii c + 32) else c.

(** [s.toLowerCase()] *)
Definition toLowerCase : string -> string := mapChars toLowerChar.

(** White space of [String.prototype.trim] among the characters below
    256: TAB, LF, VT, FF, CR, SPACE and NBSP. *)
Definition isWhiteSpace (c : ascii) : bool :=
  between 9 13 c || Nat.eqb (nat_of_ascii c) 32 || Nat.eqb (nat_of_ascii c) 160.

Fixpoint trimStart (s : string) : string :=
  match s with
  | EmptyString => EmptyString
  | String c s' => if isWhiteSpace c then trimStart s' else s
  end.

Fixpoint allChars (p : ascii -> bool) (s : string) : bool :=
  match s with
  | EmptyString => true
  | String c s' => p c && allChars p s'
  end.

Fixpoint trimEnd (s : string) : string :=
  match s with
  | EmptyString => EmptyString
  | String c s' => if allChars isWhiteSpace s then EmptyString else String c (trimEnd s')
  end.

(** [s.trim()] *)
Definition trim (s : string) : string := trimEnd (trimStart s).

(** [s.slice(0, n)] for [0 <= n]. *)
Definition slice0 (n : nat) (s : string) : string := String.substring 0 n s.

(** [arr.includes(x)] on an array of strings. *)
Definition arrayIncludes (arr : list string) (x : string) : bool :=
  existsb (String.eqb x) arr.

End Js.

(** ** Node's POSIX [path] module, on path segments *)
Module Path.

(** [s.split("/")] *)
Fixpoint split (s : string) : list string :=
  match s with
  | EmptyString => [EmptyString]
  | String c s' =>
      if Ascii.eqb c "/" then EmptyString :: split s'
      else match split s' with
           | [] => [String c EmptyString]
           | seg :: rest => String c seg :: rest
           end
  end.

(** [segs.join("/")] *)
Definition joinSegs (segs : list string) : string := String.concat "/" segs.

(** [normalizeString]: drops empty and ["."] segments and resolves
    [".."] against the segments kept so far ([res], last one first). *)
Fixpoint normalizeSegs (allowAboveRoot : bool) (res segs : list string) : list string :=
  match segs with
  | [] => rev res
  | seg :: segs' =>
      if String.eqb seg "" || String.eqb seg "." then normalizeSegs allowAboveRoot res segs'
      else if String.eqb seg ".." then
        match res with
        | last :: res' =>
            if String.eqb last ".." then
              normalizeSegs allowAboveRoot (if allowAboveRoot then ".." :: res else res) segs'
            else normalizeSegs allowAboveRoot res' segs'
        | [] => normalizeSegs allowAboveRoot (if allowAboveRoot then [".."] else []) segs'
        end
      else normalizeSegs allowAboveRoot (seg :: res) segs'
  end.

Definition isAbsolute (p : string) : bool := Js.startsWith p "/".

(** [path.normalize(p)] *)
Definition normalize (p : string) : string :=
  if String.eqb p "" then "."
  else
    let trailingSeparator := Js.endsWithChar p "/" in
    let body := joinSegs (normalizeSegs (negb (isAbsolute p)) [] (split p)) in
    if String.eqb body "" then
      if isAbsolute p then "/" else if trailingSeparator then "./" else "."
    else
      let body := if trailingSeparator then body +:+ "/" else body in
      if isAbsolute p then "/" +:+ body else body.

(** [path.join(a, b)] *)
Definition join (a b : string) : string :=
  let joined :=
    if String.eqb a "" then b
    else if String.eqb b "" then a
    else a +:+ "/" +:+ b in
  if String.eqb joined "" then "." else normalize joined.

(** The segments of [path.resolve(p)] in a process whose working
    directory is [cwd] (an absolute path). *)
Definition resolveSegs (cwd p : string) : list string :=
  normalizeSegs false [] (split (if isAbsolute p then p else cwd +:+ "/" +:+ p)).

Fixpoint stripCommon (from to : list string) : list string * list string :=
  match from, to with
  | f :: from', t :: to' =>
      if String.eqb f t then stripCommon from' to' else (from, to)
  | _, _ => (from, to)
  end.

(** [path.relative(from, to)] *)
Definition relative (cwd from to : string) : string :=
  if String.eqb from to then ""
  else
    let '(up, down) := stripCommon (resolveSegs cwd from) (resolveSegs cwd to) in
    joinSegs (map (fun _ => "..") up ++ down).

End Path.

(** ** The directory scan *)

(** The configuration object of [wpr.conf]. *)
Record Config : Type := {
  whitelist : list string;
  blacklist : list string
}.

(** What [loadConfig] returns when there is no [wpr.conf]. *)
Definition defaultConfig : Config := {|
  whitelist := [];
  blacklist := [".git"; "node_modules"; ".DS_Store"; ".idea"; ".vscode";
                "package-lock.json"; "package.json"; "yarn.lock"]
|}.

(** A directory entry as [readdir(.., {withFileTypes: true})] yields it,
    together with what a later [readdir] of it yields: the listing of a
    directory is [None] when reading it fails. *)
#[local] Unset Elimination Schemes.
Inductive Dirent : Type :=
| File (name : string)
| Dir (name : string) (listing : option (list Dirent)).
#[local] Set Elimination Schemes.

Definition entryName (entry : Dirent) : string :=
  match entry with File n => n | Dir n _ => n end.

Definition isDirectory (entry : Dirent) : bool :=
  match entry with File _ => false | Dir _ _ => true end.

(** [for (const x of xs) body] over a loop state, where the body may
    throw. *)
Definition forOf {A S : Type} (body : S -> A -> option S) : list A -> S -> option S :=
  fix go (xs : list A) (s : S) : option S :=
    match xs with
    | [] => Some s
    | x :: xs' =>
        match body s x with
        | None => None
        | Some s' => go xs' s'
        end
    end.

Section Scan.

(** [process.cwd()] *)
Variable cwd : string.

(** One iteration of the loop of [getAllFiles] on [entry], with [files]
    the array built so far. *)
Fixpoint scanEntry (config : Config) (relativeBase dirPath : string)
    (files : list string) (entry : Dirent) {struct entry} : option (list string) :=
  let fullPath := Path.join dirPath (entryName entry) in
  let relPath := Path.relative cwd relativeBase fullPath in
  if existsb (fun b => Js.includes relPath b) (blacklist config) then Some files
  else if (0 <? length (whitelist config))
          && negb (existsb (fun w => Js.startsWith relPath w) (whitelist config))
          && negb (isDirectory entry) then Some files
  else
    match entry with
    | Dir _ None => None
    | Dir _ (Some entries) =>
        match forOf (scanEntry config relativeBase fullPath) entries [] with
        | None => None
        | Some subFiles => Some (files ++ subFiles)
        end
    | File _ => Some (files ++ [fullPath])
    end.

(** [getAllFiles(dirPath, config, relativeBase)], where [readdir] is
    the listing of [dirPath]. *)
Definition getAllFiles (dirPath : string) (config : Config) (relativeBase : string)
    (readdir : option (list Dirent)) : option (list string) :=
  match readdir with
  | None => None
  | Some entries => forOf (scanEntry config relativeBase dirPath) entries []
  end.

(** [allFiles.map(f => path.relative(process.cwd(), f))]: the paths
    that are indexed and offered for selection. *)
Definition candidatePaths (allFiles : list string) : list string :=
  map (Path.relative cwd cwd) allFiles.

End Scan.

(** ** The output file name *)

(** The class [[a-z0-9]] of the first regular expression. *)
Definition isAlnum (c : ascii) : bool :=
  Js.between 97 122 c || Js.between 48 57 c.

Definition isDash (c : ascii) : bool := Ascii.eqb c "-".

(** [s.replace(/[^a-z0-9]+/g, '-')]: scanning from the left, each match
    is a longest run of characters outside the class; [inMatch] tells
    that the previous character belongs to the match being replaced. *)
Fixpoint replaceNonAlnum (inMatch : bool) (s : string) : string :=
  match s with
  | EmptyString => EmptyString
  | String c s' =>
      if isAlnum c then String c (replaceNonAlnum false s')
      else if inMatch then replaceNonAlnum true s'
      else String "-" (replaceNonAlnum true s')
  end.

(** [s.replace(/^-+|-+$/g, '')]: at the start of the string the first
    alternative removes the dashes found there; further on, the second
    one removes a run of dashes that reaches the end of the string. *)
Fixpoint removeEdgeDashes (atStart : bool) (s : string) : string :=
  match s with
  | EmptyString => EmptyString
  | String c s' =>
      if isDash c then
        if atStart then removeEdgeDashes true s'
        else if Js.allChars isDash s' then EmptyString
        else String c (removeEdgeDashes false s')
      else String c (removeEdgeDashes false s')
  end.

(** The constant [base] of [generateFilenameFromPrompt]. *)
Definition baseName (prompt : string) : string :=
  removeEdgeDashes true (replaceNonAlnum false (Js.toLowerCase prompt)).

(** [generateFilenameFromPrompt(prompt)] *)
Definition generateFilenameFromPrompt (prompt : string) : string :=
  let base := baseName prompt in
  let filename := if 50 <? String.length base then Js.slice0 50 base else base in
  if String.eqb filename "" then "prompt" else filename.

(** ** The selection loop *)

(** A result of [fuse.search]. *)
Record FuseResult : Type := {
  item : string;
  refIndex : nat
}.

(** The variables of [main] that the loop updates. *)
Record LoopState : Type := {
  selectedFiles : list string;
  addingFiles : bool
}.

Definition initialState : LoopState :=
  {| selectedFiles := []; addingFiles := true |}.

(** The body of the loop after the prompt has answered [file]. *)
Definition loopBody (st : LoopState) (file : string) : LoopState :=
  if String.eqb file "Done" then
    {| selectedFiles := selectedFiles st; addingFiles := false |}
  else if negb (String.eqb file "") && negb (Js.arrayIncludes (selectedFiles st) file) then
    {| selectedFiles := selectedFiles st ++ [file]; addingFiles := addingFiles st |}
  else st.

(** [while (addingFiles) { ... }] against the answers the prompt gives,
    one per iteration; the loop is still waiting when they run out. *)
Fixpoint selectionLoop (answers : list string) (st : LoopState) : LoopState :=
  match answers with
  | [] => st
  | file :: rest =>
      if addingFiles st then selectionLoop rest (loopBody st file) else st
  end.

(** [input || ''] *)
Definition queryText (input : option string) : string :=
  match input with
  | Some s => s
  | None => EmptyString
  end.

Section Session.

(** [process.cwd()] *)
Variable cwd : string.

(** [new Fuse(docs, options).search(query)], with the options of [main]. *)
Variable fuseSearch : list string -> string -> list FuseResult.

(** The [source] callback of the autocomplete prompt; [input] is [None]
    when the prompt passes [undefined]. *)
Definition source (allFiles : list string) (input : option string) : list string :=
  let input := queryText input in
  if String.eqb (Js.trim input) "" then
    "Done" :: candidatePaths cwd allFiles
  else
    map item (fuseSearch (candidatePaths cwd allFiles) input).

(** One interaction with the prompt: the text typed last and the entry
    picked from the list offered for it. *)
Definition offered (allFiles : list string) (step : option string * string) : Prop :=
  In step.2 (source allFiles step.1).

End Session.

(** ** The document *)

Definition nl : string := String "010" EmptyString.

(** The heading of the document. *)
Definition promptSection (userPrompt : string) : string :=
  "# Prompt" +:+ nl +:+ nl +:+ userPrompt +:+ nl +:+ nl +:+ "---"
  +:+ nl +:+ nl +:+ "# Files:" +:+ nl +:+ nl.

(** The section of one selected file. *)
Definition fileSection (f fileContent : string) : string :=
  "## " +:+ f +:+ nl +:+ nl +:+ "```" +:+ nl +:+ fileContent +:+ nl
  +:+ "```" +:+ nl +:+ nl.

(** A rejection of an [fs-extra] call: the error as Node raised it,
    with its code and, when the error has one, the path it is about. *)
Record FsError : Type := {
  errorCode : string;
  errorPath : option string
}.

(** The calls [main] makes on the file system for the document. *)
Inductive FsCall : Type :=
| EnsureDir (p : string)
| ReadFile (p : string)
| WriteFile (p text : string).

(** The file system during one run, as far as [main] can tell: how it
    answers each call.  A call without a value answers [None] when it
    resolves; nothing is assumed on why a call rejects, on the error it
    rejects with, or on what a call does to the files.  An answer per
    path describes a run of [main], whose calls are on paths of their
    own: the selection has no repetition. *)
Record FileSystem : Type := {
  onEnsureDir : string -> option FsError;
  onReadFile : string -> FsError + string;
  onWriteFile : string -> string -> option FsError
}.

(** An asynchronous step of [main]: the calls it makes, in order, and
    whether it resolves or rejects. *)
Definition Async (A : Type) : Type := FileSystem -> list FsCall * (FsError + A).

Definition resolve {A : Type} (a : A) : Async A := fun _ => ([], inr a).

(** [await]: a rejection ends the run; nothing catches it. *)
Definition await {A B : Type} (m : Async A) (k : A -> Async B) : Async B :=
  fun fs =>
    match m fs with
    | (calls, inl e) => (calls, inl e)
    | (calls, inr a) => (calls ++ (k a fs).1, (k a fs).2)
    end.

Notation "'let*' x ':=' m 'in' k" := (await m (fun x => k))
  (at level 10, x name, m at level 100, k at level 200).

Definition settled (answer : option FsError) : FsError + unit :=
  match answer with
  | Some e => inl e
  | None => inr tt
  end.

(** [fsExtra.readFile(p, 'utf-8')] *)
Definition readFile (p : string) : Async string :=
  fun fs => ([ReadFile p], onReadFile fs p).

(** [fsExtra.ensureDir(p)] *)
Definition ensureDir (p : string) : Async unit :=
  fun fs => ([EnsureDir p], settled (onEnsureDir fs p)).

(** [fsExtra.writeFile(p, text, 'utf-8')] *)
Definition writeFile (p text : string) : Async unit :=
  fun fs => ([WriteFile p text], settled (onWriteFile fs p text)).

(** The loop that appends one section per selected file to [content]. *)
Fixpoint appendSections (cwd : string) (selected : list string) (content : string)
    : Async string :=
  match selected with
  | [] => resolve content
  | f :: rest =>
      let* fileContent := readFile (Path.join cwd f) in
      appendSections cwd rest (content +:+ fileSection f fileContent)
  end.

(** The end of [main], from the derivation of the file name on; it
    resolves with the path of the file written. *)
Definition writeDocument (cwd : string) (selected : list string) (userPrompt : string)
    : Async string :=
  let filename := generateFilenameFromPrompt userPrompt in
  let wprDir := Path.join cwd "wpr" in
  let* _ := ensureDir wprDir in
  let* content := appendSections cwd selected (promptSection userPrompt) in
  let outFile := Path.join wprDir (filename +:+ ".md") in
  let* _ := writeFile outFile content in
  resolve outFile.

(** ** Notions the statements are written with *)

Definition noSlash (s : string) : bool :=
  Js.allChars (fun c => negb (Ascii.eqb c "/")) s.

(** A name [readdir] can yield: not empty, not ["."] or [".."], and
    without a separator. *)
Definition simpleName (n : string) : bool :=
  negb (String.eqb n "") && negb (String.eqb n ".") && negb (String.eqb n "..")
  && noSlash n.

Fixpoint wellFormed (entry : Dirent) : bool :=
  simpleName (entryName entry)
  && match entry with
     | Dir _ (Some entries) => forallb wellFormed entries
     | _ => true
     end.

(** Every directory below (and including) the entry can be read. *)
Fixpoint readable (entry : Dirent) : bool :=
  match entry with
  | File _ => true
  | Dir _ None => false
  | Dir _ (Some entries) => forallb readable entries
  end.

(** The path [getAllFiles] builds for the entry reached from [root]
    through [names]: one [path.join] per level. *)
Definition underRoot (root : string) (names : list string) : string :=
  fold_left Path.join names root.

(** The scan and the file name as the specification words them. *)
Module Spec.

(** The files below an entry, depth first in the order of the listings,
    each as the list of names that lead to it from the scan root;
    [parents] are the names that lead to the entry's directory. *)
Fixpoint filesUnder (parents : list string) (entry : Dirent) : list (list string) :=
  match entry with
  | File n => [parents ++ [n]]
  | Dir _ None => []
  | Dir n (Some entries) => flat_map (filesUnder (parents ++ [n])) entries
  end.

(** The relative paths of all files of a tree, depth first. *)
Definition treeFiles (entries : list Dirent) : list string :=
  map Path.joinSegs (flat_map (filesUnder []) entries).

(** The rule of PathFilter for a file, on its relative path: no
    blacklist entry occurs in it, and the whitelist is empty or one of
    its entries starts it. *)
Definition eligible (config : Config) (relPath : string) : bool :=
  negb (existsb (fun b => Js.includes relPath b) (blacklist config))
  && (Nat.eqb (length (whitelist config)) 0
      || existsb (fun w => Js.startsWith relPath w) (whitelist config)).

(** The rule on a file given by the names that lead to it. *)
Definition eligibleFile (config : Config) (names : list string) : bool :=
  eligible config (Path.joinSegs names).

(** [deriveFilename], step by step. *)

(** The maximal runs of a string, each with its class: [true] for a
    run of characters of [[a-z0-9]], [false] for a run of others. *)
Fixpoint runs (s : string) : list (bool * string) :=
  match s with
  | EmptyString => []
  | String c s' =>
      match runs s' with
      | (k, r) :: rest =>
          if Bool.eqb k (isAlnum c) then (k, String c r) :: rest
          else (isAlnum c, String c EmptyString) :: (k, r) :: rest
      | [] => [(isAlnum c, String c EmptyString)]
      end
  end.

(** Every run of other characters becomes a single dash. *)
Definition render (rs : list (bool * string)) : string :=
  fold_right (fun (kr : bool * string) acc => (if kr.1 then kr.2 else "-") +:+ acc)
    EmptyString rs.

Fixpoint dropLeadingDashes (s : string) : string :=
  match s with
  | EmptyString => EmptyString
  | String c s' => if isDash c then dropLeadingDashes s' else s
  end.

Fixpoint dropTrailingDashes (s : string) : string :=
  match s with
  | EmptyString => EmptyString
  | String c s' =>
      match dropTrailingDashes s' with
      | EmptyString => if isDash c then EmptyString else String c EmptyString
      | t => String c t
      end
  end.

(** The first [n] characters, or all of them when there are fewer. *)
Fixpoint takeChars (n : nat) (s : string) : string :=
  match n, s with
  | S n', String c s' => String c (takeChars n' s')
  | _, _ => EmptyString
  end.

Definition deriveFilename (prompt : string) : string :=
  let lowered := Js.toLowerCase prompt in
  let dashed := render (runs lowered) in
  let stripped := dropTrailingDashes (dropLeadingDashes dashed) in
  let truncated := takeChars 50 stripped in
  if String.eqb truncated "" then "prompt" else truncated.

End Spec.

(** The paths [getAllFiles] is to return for the files [found] below
    [root]: those that pass the rule, in the order found. *)
Definition expectedFiles (root : string) (config : Config) (found : list (list string))
    : list string :=
  map (underRoot root) (List.filter (Spec.eligibleFile config) found).

(** The rule on a path [getAllFiles] has built. *)
Definition passes (cwd : string) (config : Config) (relativeBase f : string) : Prop :=
  Spec.eligible config (Path.relative cwd relativeBase f) = true.


(** [render] without the dash of a leading run of other characters. *)
Definition renderSkip (rs : list (bool * string)) : string :=
  match rs with
  | (false, _) :: rest => Spec.render rest
  | _ => Spec.render rs
  end.

(** An index for the examples: it finds the documents in which the
    query occurs, in their order. *)
Definition substringSearch (docs : list string) (query : string) : list FuseResult :=
  map (fun d => {| item := d.1; refIndex := d.2 |})
    (List.filter (fun d : string * nat => Js.includes d.1 query)
       (combine docs (seq 0 (length docs)))).

(** What is to hold of the selection after every iteration. *)
Definition selectionInvariant (candidates : list string) (st : LoopState) : Prop :=
  List.NoDup (selectedFiles st)
  /\ forall f, In f (selectedFiles st) -> In f candidates.

(** Data of the examples. *)
Definition noSuchFile (p : string) : FsError :=
  {| errorCode := "ENOENT"; errorPath := Some p |}.

(** A directory that holds [a.txt] and [docs], a link to a directory:
    reading the link rejects with an error that has no path. *)
Definition exampleFiles : FileSystem :=
  {| onEnsureDir := fun _ => None;
     onReadFile := fun p =>
       if String.eqb p "/proj/a.txt" then inr "alpha"
       else if String.eqb p "/proj/docs"
            then inl {| errorCode := "EISDIR"; errorPath := None |}
            else inl (noSuchFile p);
     onWriteFile := fun _ _ => None |}.

Definition exampleTree : list Dirent :=
  [File "b.txt";
   Dir "src" (Some [File "z.js"; Dir "lib" (Some [File "x.js"]); File "a.js"]);
   Dir ".git" (Some [File "config"]);
   File "a.txt"].

Definition whitelistTree : list Dirent :=
  [Dir "src" (Some [File "app.js"; File "util.js"]);
   Dir "lib" (Some [File "app.js"])].

Definition whitelistConfig : Config :=
  {| whitelist := ["src/app"]; blacklist := [".git"] |}.

Definition secretConfig : Config :=
  {| whitelist := ["src"]; blacklist := ["secret"] |}.

Definition secretTree : list Dirent :=
  [Dir "src" (Some [File "app.js"; File "secret.txt"])].

(** [n] times the character [c]. *)
Fixpoint repeatChar (n : nat) (c : ascii) : string :=
  match n with
  | O => EmptyString
  | S n' => String c (repeatChar n' c)
  end.

(** ** Notions of the further properties *)

(** The names of a listing are pairwise different, as those of one
    directory are. *)
Fixpoint distinctStrings (l : list string) : bool :=
  match l with
  | [] => true
  | x :: l' => negb (Js.arrayIncludes l' x) && distinctStrings l'
  end.

Fixpoint distinctNames (entry : Dirent) : bool :=
  match entry with
  | Dir _ (Some entries) =>
      distinctStrings (map entryName entries) && forallb distinctNames entries
  | _ => true
  end.

(** A character a file name is made of: [[a-z0-9]] or the dash. *)
Definition isNameChar (c : ascii) : bool := isAlnum c || isDash c.

(** A letter or a digit: a character whose lower case is in [[a-z0-9]]. *)
Definition isLetterOrDigit (c : ascii) : bool := isAlnum (Js.toLowerChar c).

(** The answers given before the first ["Done"]. *)
Fixpoint beforeDone (answers : list string) : list string :=
  match answers with
  | [] => []
  | a :: rest => if String.eqb a "Done" then [] else a :: beforeDone rest
  end.

(** A list without the repetitions of its elements: each stays where
    it occurs first. *)
Fixpoint firstOccurrences (l : list string) : list string :=
  match l with
  | [] => []
  | x :: l' => x :: List.filter (fun y => negb (String.eqb y x)) (firstOccurrences l')
  end.

(** The sections of the selected files, one after the other, each with
    the text [readFile] resolves with. *)
Fixpoint sectionsOf (cwd : string) (fs : FileSystem) (selected : list string) : string :=
  match selected with
  | [] => EmptyString
  | f :: rest =>
      fileSection f
        (match onReadFile fs (Path.join cwd f) with
         | inr text => text
         | inl _ => EmptyString
         end)
      +:+ sectionsOf cwd fs rest
  end.

(** The document of a run: the prompt section, then the sections. *)
Definition documentOf (cwd : string) (fs : FileSystem) (selected : list string)
    (userPrompt : string) : string :=
  promptSection userPrompt +:+ sectionsOf cwd fs selected.

(** The reads of the selected files, in the order of the selection. *)
Definition readsOf (cwd : string) (selected : list string) : list FsCall :=
  map (fun f => ReadFile (Path.join cwd f)) selected.

(** The path [main] writes the document of a prompt to. *)
Definition outFileOf (cwd userPrompt : string) : string :=
  Path.join (Path.join cwd "wpr") (generateFilenameFromPrompt userPrompt +:+ ".md").

(** A tree with a directory that cannot be read below a blacklisted one. *)
Definition prunedTree : list Dirent :=
  [File "a.txt"; Dir "node_modules" None; Dir "src" (Some [File "b.js"])].

(** * Properties *)

(** ** Strings *)
Module JsFacts.
Import Js.

Lemma sapp_nil_l (s : string) : "" +:+ s = s.
Proof. reflexivity. Qed.

Lemma sapp_cons (c : ascii) (s t : string) : String c s +:+ t = String c (s +:+ t).
Proof. reflexivity. Qed.

Lemma sapp_nil_r (s : string) : s +:+ "" = s.
Proof. induction s as [|c s IH]; [reflexivity|]. now rewrite sapp_cons, IH. Qed.

Lemma sapp_assoc (s t u : string) : (s +:+ t) +:+ u = s +:+ (t +:+ u).
Proof. induction s as [|c s IH]; [reflexivity|]. now rewrite !sapp_cons, IH. Qed.

Lemma slength_app (s t : string) :
  String.length (s +:+ t) = String.length s + String.length t.
Proof. induction s as [|c s IH]; [reflexivity|]. rewrite sapp_cons. simpl. now rewrite IH. Qed.

Lemma sapp_eq_nil (s t : string) : s +:+ t = "" -> s = "" /\ t = "".
Proof.
  destruct s as [|c s]; [rewrite sapp_nil_l; now intros ->|].
  rewrite sapp_cons. discriminate.
Qed.

(** [startsWith] decides the prefix relation. *)
Lemma startsWith_spec (s w : string) :
  startsWith s w = true <-> exists t, s = w +:+ t.
Proof.
  revert s; induction w as [|a w IH]; intros s; simpl.
  - split; [exists s; reflexivity|reflexivity].
  - destruct s as [|b s].
    + split; [discriminate|]. intros [t Ht]. discriminate.
    + rewrite andb_true_iff, Ascii.eqb_eq, IH. split.
      * intros [-> [t ->]]. exists t. reflexivity.
      * intros [t Ht]. rewrite sapp_cons in Ht. injection Ht as -> ->. eauto.
Qed.

Lemma startsWith_app (s t : string) : startsWith (s +:+ t) s = true.
Proof. apply startsWith_spec. eauto. Qed.

(** [includes] decides the substring relation. *)
Lemma includes_spec (s b : string) :
  includes s b = true <-> exists pre post, s = pre +:+ b +:+ post.
Proof.
  induction s as [|c s IH]; simpl.
  - rewrite orb_false_r, startsWith_spec. split.
    + intros [t Ht]. exists "", t. exact Ht.
    + intros [pre [post H]]. symmetry in H.
      apply sapp_eq_nil in H as [-> H]. exists post. now rewrite H.
  - rewrite orb_true_iff, startsWith_spec, IH. split.
    + intros [[t Ht]|[pre [post H]]].
      * exists "", t. exact Ht.
      * exists (String c pre), post. now rewrite sapp_cons, H.
    + intros [[|a pre] [post H]].
      * left. exists post. exact H.
      * right. rewrite sapp_cons in H. injection H as -> H. eauto.
Qed.

(** An occurrence in a string is an occurrence in every extension. *)
Lemma includes_app (s t b : string) :
  includes s b = true -> includes (s +:+ t) b = true.
Proof.
  rewrite !includes_spec. intros [pre [post ->]].
  exists pre, (post +:+ t). now rewrite !sapp_assoc.
Qed.

End JsFacts.

(** ** Paths *)
Module PathFacts.
Import Js JsFacts Path.

Lemma split_nonempty (s : string) : split s <> [].
Proof.
  destruct s as [|c s]; simpl; [discriminate|].
  destruct (Ascii.eqb c "/"); [discriminate|].
  destruct (split s); discriminate.
Qed.

Lemma split_noSlash (s : string) : noSlash s = true -> split s = [s].
Proof.
  unfold noSlash. induction s as [|c s IH]; simpl; [reflexivity|].
  rewrite andb_true_iff, negb_true_iff. intros [-> Hs].
  now rewrite (IH Hs).
Qed.

Lemma split_app_sep (a b : string) :
  split (a +:+ "/" +:+ b) = split a ++ split b.
Proof.
  induction a as [|c a IH].
  - reflexivity.
  - rewrite sapp_cons. simpl. destruct (Ascii.eqb c "/").
    + now rewrite IH.
    + rewrite IH. pose proof (split_nonempty a) as Hne.
      destruct (split a); [contradiction|reflexivity].
Qed.

Lemma split_segments (s : string) : Forall (fun seg => noSlash seg = true) (split s).
Proof.
  induction s as [|c s IH]; simpl.
  - repeat constructor.
  - destruct (Ascii.eqb c "/") eqn:Hc.
    + constructor; [reflexivity|exact IH].
    + destruct (split s) as [|seg rest];
        [repeat constructor; unfold noSlash; simpl; now rewrite Hc|].
      inversion IH as [|? ? Hseg Hrest]; subst. constructor; [|exact Hrest].
      unfold noSlash in *. simpl. now rewrite Hc, Hseg.
Qed.

Lemma joinSegs_cons (x y : string) (l : list string) :
  joinSegs (x :: y :: l) = x +:+ "/" +:+ joinSegs (y :: l).
Proof. reflexivity. Qed.

Lemma joinSegs_app (l1 l2 : list string) :
  l1 <> [] -> l2 <> [] ->
  joinSegs (l1 ++ l2) = joinSegs l1 +:+ "/" +:+ joinSegs l2.
Proof.
  intros H1 H2. induction l1 as [|a l1 IH]; [contradiction|].
  destruct l1 as [|b l1].
  - destruct l2; [contradiction|reflexivity].
  - change ((a :: b :: l1) ++ l2) with (a :: b :: (l1 ++ l2)).
    rewrite !joinSegs_cons, sapp_assoc, sapp_assoc. do 2 f_equal.
    now apply (IH ltac:(discriminate)).
Qed.

Lemma joinSegs_snoc (l : list string) (x : string) :
  l <> [] -> joinSegs (l ++ [x]) = joinSegs l +:+ "/" +:+ x.
Proof. intros Hl. now apply joinSegs_app. Qed.

(** The path of a directory starts the paths of what is below it. *)
Lemma joinSegs_extends (l more : list string) :
  l <> [] -> exists rest, joinSegs (l ++ more) = joinSegs l +:+ rest.
Proof.
  intros Hl. destruct more as [|m more].
  - exists "". now rewrite app_nil_r, sapp_nil_r.
  - exists ("/" +:+ joinSegs (m :: more)). now apply joinSegs_app.
Qed.

(** Joining and splitting again gives the segments back. *)
Lemma split_joinSegs (l : list string) :
  Forall (fun seg => noSlash seg = true) l -> l <> [] -> split (joinSegs l) = l.
Proof.
  induction l as [|a l IH]; [contradiction|]. intros Hall _.
  inversion Hall as [|? ? Ha Hl]; subst.
  destruct l as [|b l].
  - now apply split_noSlash.
  - rewrite joinSegs_cons, split_app_sep, (split_noSlash a Ha).
    now rewrite (IH Hl ltac:(discriminate)).
Qed.

Lemma simpleName_noSlash (n : string) : simpleName n = true -> noSlash n = true.
Proof. unfold simpleName. rewrite !andb_true_iff. tauto. Qed.

Lemma simpleName_nonempty (n : string) : simpleName n = true -> n <> "".
Proof. intros H ->. discriminate. Qed.

Lemma normalizeSegs_app (allowAbove : bool) (xs ys res : list string) :
  normalizeSegs allowAbove res (xs ++ ys)
  = normalizeSegs allowAbove (rev (normalizeSegs allowAbove res xs)) ys.
Proof.
  revert res; induction xs as [|x xs IH]; intros res; simpl.
  - now rewrite rev_involutive.
  - destruct (String.eqb x "" || String.eqb x "."); [apply IH|].
    destruct (String.eqb x ".."); [|apply IH].
    destruct res as [|last res]; [apply IH|].
    destruct (String.eqb last ".."); apply IH.
Qed.

(** Names of entries pass through the normalisation unchanged. *)
Lemma normalizeSegs_simple (allowAbove : bool) (xs res : list string) :
  Forall (fun n => simpleName n = true) xs ->
  normalizeSegs allowAbove res xs = rev res ++ xs.
Proof.
  intros Hxs; revert res; induction Hxs as [|x xs Hx _ IH]; intros res; simpl.
  - now rewrite app_nil_r.
  - unfold simpleName in Hx. rewrite !andb_true_iff, !negb_true_iff in Hx.
    destruct Hx as [[[-> ->] ->] _]. simpl.
    rewrite IH. simpl. now rewrite <- app_assoc.
Qed.

(** Without [allowAboveRoot], what is kept are names. *)
Lemma normalizeSegs_names (segs res : list string) :
  Forall (fun n => simpleName n = true) res ->
  Forall (fun seg => noSlash seg = true) segs ->
  Forall (fun n => simpleName n = true) (normalizeSegs false res segs).
Proof.
  intros Hres Hsegs; revert res Hres.
  induction Hsegs as [|x xs Hx _ IH]; intros res Hres; simpl.
  - now apply Forall_rev.
  - destruct (String.eqb x "") eqn:E1; [now apply IH|].
    destruct (String.eqb x ".") eqn:E2; [now apply IH|]. simpl.
    destruct (String.eqb x "..") eqn:E3.
    + destruct res as [|last res]; [now apply IH|].
      destruct (String.eqb last ".."); apply IH; [exact Hres|].
      now inversion Hres.
    + apply IH. constructor; [|exact Hres].
      unfold simpleName. now rewrite E1, E2, E3, Hx.
Qed.

Lemma resolveSegs_names (cwd p : string) :
  Forall (fun n => simpleName n = true) (resolveSegs cwd p).
Proof.
  unfold resolveSegs. apply normalizeSegs_names; [constructor|apply split_segments].
Qed.

Lemma names_noSlash (l : list string) :
  Forall (fun n => simpleName n = true) l -> Forall (fun seg => noSlash seg = true) l.
Proof. apply List.Forall_impl. exact simpleName_noSlash. Qed.

(** Resolving the absolute path made of names gives the names back. *)
Lemma resolveSegs_joined (cwd : string) (l : list string) :
  Forall (fun n => simpleName n = true) l ->
  resolveSegs cwd ("/" +:+ joinSegs l) = l.
Proof.
  intros Hl. unfold resolveSegs, isAbsolute. rewrite startsWith_app.
  change ("/" +:+ joinSegs l) with ("" +:+ "/" +:+ joinSegs l).
  rewrite split_app_sep. destruct l as [|a l]; [reflexivity|].
  rewrite split_joinSegs by (auto using names_noSlash || discriminate).
  change (split "" ++ a :: l) with ("" :: a :: l).
  change (normalizeSegs false [] ("" :: a :: l)) with (normalizeSegs false [] (a :: l)).
  now rewrite normalizeSegs_simple.
Qed.

Lemma endsWithChar_app (s t : string) (c : ascii) :
  t <> "" -> endsWithChar (s +:+ t) c = endsWithChar t c.
Proof.
  intros Ht. induction s as [|a s IH]; [reflexivity|].
  rewrite sapp_cons. simpl. rewrite IH.
  destruct (s +:+ t) eqn:E; [|reflexivity].
  apply sapp_eq_nil in E as [_ E]. contradiction.
Qed.

Lemma endsWithChar_noSlash (n : string) : noSlash n = true -> endsWithChar n "/" = false.
Proof.
  unfold noSlash. induction n as [|a n IH]; [reflexivity|]. simpl.
  rewrite andb_true_iff, negb_true_iff. intros [Ha Hn].
  destruct n; [exact Ha|now apply IH].
Qed.

Lemma joinSegs_snoc_nonempty (l : list string) (n : string) :
  n <> "" -> joinSegs (l ++ [n]) <> "".
Proof.
  intros Hn. destruct l as [|a l]; [exact Hn|].
  rewrite joinSegs_snoc by discriminate. intros E.
  apply sapp_eq_nil in E as [_ E]. discriminate.
Qed.

Lemma joinSegs_names_nonempty (l : list string) :
  Forall (fun n => simpleName n = true) l -> l <> [] -> joinSegs l <> "".
Proof.
  intros Hl Hne. destruct l as [|n l _] using rev_ind; [contradiction|].
  apply Forall_app in Hl as [_ Hn]. inversion Hn; subst.
  now apply joinSegs_snoc_nonempty, simpleName_nonempty.
Qed.

Lemma joinSegs_names_end (l : list string) :
  Forall (fun n => simpleName n = true) l -> endsWithChar (joinSegs l) "/" = false.
Proof.
  intros Hl. destruct l as [|n l _] using rev_ind; [reflexivity|].
  apply Forall_app in Hl as [_ Hn]. inversion Hn as [|? ? Hn' _]; subst.
  destruct l as [|a l].
  - now apply endsWithChar_noSlash, simpleName_noSlash.
  - rewrite joinSegs_snoc, <- sapp_assoc, endsWithChar_app by
      (discriminate || now apply simpleName_nonempty).
    now apply endsWithChar_noSlash, simpleName_noSlash.
Qed.

(** [path.join] of an absolute path and a relative path made of names:
    the resolved segments of the first, then the names. *)
Lemma join_names (cwd p : string) (l : list string) :
  isAbsolute p = true ->
  Forall (fun n => simpleName n = true) l -> l <> [] ->
  join p (joinSegs l) = "/" +:+ joinSegs (resolveSegs cwd p ++ l).
Proof.
  intros Hp Hl Hne. pose proof (joinSegs_names_nonempty l Hl Hne) as Hrel.
  destruct (proj1 (startsWith_spec p "/") Hp) as [r ->].
  unfold join.
  replace (String.eqb ("/" +:+ r) "") with false by reflexivity.
  destruct (String.eqb_spec (joinSegs l) "") as [|_]; [contradiction|].
  replace (String.eqb (("/" +:+ r) +:+ "/" +:+ joinSegs l) "") with false by reflexivity.
  unfold normalize.
  replace (String.eqb (("/" +:+ r) +:+ "/" +:+ joinSegs l) "") with false by reflexivity.
  replace (isAbsolute (("/" +:+ r) +:+ "/" +:+ joinSegs l)) with true by reflexivity.
  rewrite <- sapp_assoc, endsWithChar_app, (joinSegs_names_end l Hl) by exact Hrel.
  rewrite sapp_assoc, split_app_sep, (split_joinSegs l (names_noSlash l Hl) Hne).
  rewrite normalizeSegs_app, (normalizeSegs_simple _ l) by exact Hl.
  rewrite rev_involutive. unfold resolveSegs. rewrite Hp.
  change (negb true) with false.
  destruct (String.eqb_spec (joinSegs (normalizeSegs false [] (split ("/" +:+ r)) ++ l)) "")
    as [E|_]; [|reflexivity].
  destruct l as [|n l _] using rev_ind; [contradiction|].
  apply Forall_app in Hl as [_ Hn]. inversion Hn; subst.
  rewrite app_assoc in E. exfalso. revert E.
  now apply joinSegs_snoc_nonempty, simpleName_nonempty.
Qed.

Lemma join_name (cwd p n : string) :
  isAbsolute p = true -> simpleName n = true ->
  join p n = "/" +:+ joinSegs (resolveSegs cwd p ++ [n]).
Proof.
  intros Hp Hn. apply (join_names cwd p [n] Hp); [|discriminate].
  constructor; [exact Hn|constructor].
Qed.

Lemma underRoot_snoc (root : string) (l : list string) (n : string) :
  underRoot root (l ++ [n]) = join (underRoot root l) n.
Proof. unfold underRoot. now rewrite fold_left_app. Qed.

(** The path built for an entry: the resolved root, then the names. *)
Lemma underRoot_names (cwd root : string) (l : list string) :
  isAbsolute root = true ->
  Forall (fun n => simpleName n = true) l -> l <> [] ->
  underRoot root l = "/" +:+ joinSegs (resolveSegs cwd root ++ l).
Proof.
  intros Hroot. induction l as [|n l IH] using rev_ind; [contradiction|].
  intros Hall _. apply Forall_app in Hall as [Hl Hn].
  inversion Hn as [|? ? Hn' _]; subst.
  rewrite underRoot_snoc. destruct l as [|a l].
  - now apply join_name.
  - rewrite (IH Hl ltac:(discriminate)).
    rewrite (join_name cwd) by (exact Hn' || reflexivity).
    rewrite resolveSegs_joined, <- app_assoc; [reflexivity|].
    apply Forall_app. split; [apply resolveSegs_names|exact Hl].
Qed.

Lemma underRoot_absolute (cwd root : string) (l : list string) :
  isAbsolute root = true ->
  Forall (fun n => simpleName n = true) l ->
  isAbsolute (underRoot root l) = true.
Proof.
  intros Hroot Hl. destruct l as [|a l]; [exact Hroot|].
  now rewrite (underRoot_names cwd) by (assumption || discriminate).
Qed.

(** Joining level by level or joining the relative path at once gives
    the same path. *)
Lemma underRoot_join (cwd root : string) (l : list string) :
  isAbsolute root = true ->
  Forall (fun n => simpleName n = true) l -> l <> [] ->
  underRoot root l = join root (joinSegs l).
Proof.
  intros Hroot Hl Hne.
  now rewrite (underRoot_names cwd), (join_names cwd) by assumption.
Qed.

Lemma stripCommon_prefix (l t : list string) : stripCommon l (l ++ t) = ([], t).
Proof.
  induction l as [|a l IH]; simpl; [now destruct t|].
  now rewrite String.eqb_refl.
Qed.

(** Relative to the root, the path built for an entry is the names
    that lead to it, joined. *)
Lemma relative_underRoot (cwd root : string) (l : list string) :
  isAbsolute root = true ->
  Forall (fun n => simpleName n = true) l -> l <> [] ->
  relative cwd root (underRoot root l) = joinSegs l.
Proof.
  intros Hroot Hall Hne.
  assert (Hres : resolveSegs cwd (underRoot root l) = resolveSegs cwd root ++ l).
  { rewrite (underRoot_names cwd) by assumption. apply resolveSegs_joined.
    apply Forall_app. split; [apply resolveSegs_names|exact Hall]. }
  unfold relative. destruct (String.eqb_spec root (underRoot root l)) as [E|_].
  - rewrite <- E in Hres. rewrite <- (app_nil_r (resolveSegs cwd root)) in Hres at 1.
    apply app_inv_head in Hres. now subst l.
  - now rewrite Hres, stripCommon_prefix.
Qed.

End PathFacts.

(** ** The directory scan *)
Module ScanFacts.
Import Js JsFacts Path PathFacts Spec.

(** Induction on directory trees. *)
Lemma Dirent_ind (P : Dirent -> Prop) :
  (forall n, P (File n)) ->
  (forall n, P (Dir n None)) ->
  (forall n entries, Forall P entries -> P (Dir n (Some entries))) ->
  forall entry, P entry.
Proof.
  intros HFile HNone HSome. fix IH 1. intros [n|n [entries|]].
  - apply HFile.
  - apply HSome. induction entries as [|e es IHes]; constructor; [apply IH|exact IHes].
  - apply HNone.
Qed.

Lemma forOf_cons {A S : Type} (body : S -> A -> option S) (x : A) (xs : list A) (s : S) :
  forOf body (x :: xs) s = match body s x with None => None | Some s' => forOf body xs s' end.
Proof. reflexivity. Qed.

Lemma filter_none {A : Type} (f : A -> bool) (l : list A) :
  (forall x, In x l -> f x = false) -> List.filter f l = [].
Proof.
  induction l as [|a l IH]; intros H; [reflexivity|]. simpl.
  rewrite (H a) by now left. apply IH. intros x Hx. apply H. now right.
Qed.

Lemma filter_map_comm {A B : Type} (f : B -> bool) (g : A -> B) (l : list A) :
  List.filter f (map g l) = map g (List.filter (fun x => f (g x)) l).
Proof.
  induction l as [|a l IH]; [reflexivity|]. simpl.
  destruct (f (g a)); simpl; now rewrite IH.
Qed.

(** The files below an entry are reached through the entry. *)
Lemma filesUnder_extends (entry : Dirent) :
  forall parents segs,
    In segs (filesUnder parents entry) ->
    exists more, segs = parents ++ entryName entry :: more.
Proof.
  induction entry as [n|n|n entries IH] using Dirent_ind; intros parents segs; simpl.
  - intros [<-|[]]. now exists [].
  - intros [].
  - rewrite in_flat_map. intros [e [He Hsegs]].
    rewrite List.Forall_forall in IH.
    destruct (IH e He _ _ Hsegs) as [more ->].
    exists (entryName e :: more). now rewrite <- app_assoc.
Qed.

Lemma filesUnder_names (entry : Dirent) :
  forall parents segs,
    wellFormed entry = true ->
    Forall (fun n => simpleName n = true) parents ->
    In segs (filesUnder parents entry) ->
    Forall (fun n => simpleName n = true) segs.
Proof.
  induction entry as [n|n|n entries IH] using Dirent_ind; intros parents segs; simpl.
  - rewrite andb_true_r. intros Hn Hp [<-|[]].
    apply Forall_app. split; [exact Hp|]. now constructor.
  - intros _ _ [].
  - rewrite andb_true_iff, forallb_forall, in_flat_map.
    intros [Hn Hwf] Hp [e [He Hsegs]]. rewrite List.Forall_forall in IH.
    apply (IH e He (parents ++ [n])); [now apply Hwf| |exact Hsegs].
    apply Forall_app. split; [exact Hp|]. now constructor.
Qed.

(** The iteration went on to the next entry: nothing was added. *)
Ltac nothing_added :=
  intros [= <-]; exists []; rewrite app_nil_r; split; [reflexivity|constructor].

Section Scan.

Variable cwd : string.
Variable config : Config.
Variable relativeBase : string.

(** The test [scanEntry] makes before it pushes a file, in terms of
    [eligible]. *)
Lemma pushed_eligible (relPath : string) :
  existsb (fun b => includes relPath b) (blacklist config) = false ->
  (0 <? length (whitelist config))
    && negb (existsb (fun w => startsWith relPath w) (whitelist config)) = false ->
  eligible config relPath = true.
Proof.
  unfold eligible. intros -> H. simpl.
  destruct (whitelist config) as [|w ws] eqn:E; [reflexivity|].
  simpl in H |- *. now apply negb_false_iff in H.
Qed.

Lemma skipped_not_eligible (relPath : string) :
  (0 <? length (whitelist config))
    && negb (existsb (fun w => startsWith relPath w) (whitelist config)) = true ->
  eligible config relPath = false.
Proof.
  unfold eligible. rewrite andb_true_iff, negb_true_iff. intros [Hlen ->].
  destruct (whitelist config); [discriminate|]. simpl. apply andb_false_r.
Qed.

(** A loop whose iterations only add paths that pass, only adds paths
    that pass. *)
Lemma forOf_adds_eligible (dirPath : string) (entries : list Dirent) :
  Forall (fun entry => forall dirPath files result,
            scanEntry cwd config relativeBase dirPath files entry = Some result ->
            exists added,
              result = files ++ added /\
              Forall (passes cwd config relativeBase) added) entries ->
  forall files result,
    forOf (scanEntry cwd config relativeBase dirPath) entries files = Some result ->
    exists added,
      result = files ++ added /\ Forall (passes cwd config relativeBase) added.
Proof.
  induction 1 as [|e es He _ IHes]; intros files result.
  - nothing_added.
  - rewrite forOf_cons.
    destruct (scanEntry cwd config relativeBase dirPath files e) as [files1|] eqn:He1;
      [|discriminate].
    intros Hrest. apply He in He1 as [a1 [-> Ha1]].
    apply IHes in Hrest as [a2 [-> Ha2]].
    exists (a1 ++ a2). rewrite app_assoc. split; [reflexivity|].
    apply Forall_app. now split.
Qed.

(** What one iteration adds to [files] are paths that pass the filter
    rule, whatever the tree and the directory scanned. *)
Lemma scanEntry_adds_eligible (entry : Dirent) :
  forall dirPath files result,
    scanEntry cwd config relativeBase dirPath files entry = Some result ->
    exists added,
      result = files ++ added /\ Forall (passes cwd config relativeBase) added.
Proof.
  induction entry as [n|n|n entries IH] using Dirent_ind; intros dirPath files result;
    cbn [scanEntry entryName isDirectory];
    destruct (existsb _ (blacklist config)) eqn:Hbl;
    try nothing_added.
  - rewrite andb_true_r.
    destruct (_ && _) eqn:Hwl.
    + nothing_added.
    + intros [= <-]. exists [join dirPath n]. split; [reflexivity|].
      constructor; [|constructor]. now apply pushed_eligible.
  - rewrite andb_false_r. discriminate.
  - rewrite andb_false_r.
    destruct (forOf _ entries []) as [subFiles|] eqn:Hsub; [|discriminate].
    intros [= <-]. exists subFiles. split; [reflexivity|].
    apply (forOf_adds_eligible _ _ IH) in Hsub as [added [-> Hadded]]. exact Hadded.
Qed.

(** Every path [getAllFiles] returns passes the filter rule. *)
Lemma getAllFiles_eligible (dirPath : string) (readdir : option (list Dirent))
    (allFiles : list string) :
  getAllFiles cwd dirPath config relativeBase readdir = Some allFiles ->
  Forall (passes cwd config relativeBase) allFiles.
Proof.
  destruct readdir as [entries|]; [|discriminate]. unfold getAllFiles. intros H.
  apply forOf_adds_eligible in H as [added [-> Hadded]]; [exact Hadded|].
  apply List.Forall_forall. intros e _. apply scanEntry_adds_eligible.
Qed.

End Scan.

Section Exact.

Variable cwd root : string.
Variable config : Config.
Hypothesis Hroot : isAbsolute root = true.

(** Below a directory whose path holds a blacklist entry, no file
    passes the rule. *)
Lemma blacklisted_below (parents : list string) (n : string) (more : list string) :
  existsb (fun b => includes (joinSegs (parents ++ [n])) b) (blacklist config) = true ->
  eligibleFile config (parents ++ n :: more) = false.
Proof.
  intros H. unfold eligibleFile, eligible.
  replace (parents ++ n :: more) with ((parents ++ [n]) ++ more)
    by now rewrite <- app_assoc.
  destruct (joinSegs_extends (parents ++ [n]) more) as [rest ->];
    [destruct parents; discriminate|].
  apply existsb_exists in H as [b [Hb Hinc]].
  replace (existsb _ (blacklist config)) with true; [reflexivity|].
  symmetry. apply existsb_exists. exists b. split; [exact Hb|].
  now apply includes_app.
Qed.

Lemma forOf_exact (entries : list Dirent) (parents : list string) :
  Forall (fun entry => forall parents files,
            Forall (fun n => simpleName n = true) parents ->
            wellFormed entry = true ->
            match scanEntry cwd config root (underRoot root parents) files entry with
            | Some result =>
                result = files ++ expectedFiles root config (filesUnder parents entry)
            | None => readable entry = false
            end) entries ->
  Forall (fun n => simpleName n = true) parents ->
  forallb wellFormed entries = true ->
  forall files,
    match forOf (scanEntry cwd config root (underRoot root parents)) entries files with
    | Some result =>
        result = files ++ expectedFiles root config (flat_map (filesUnder parents) entries)
    | None => forallb readable entries = false
    end.
Proof.
  induction 1 as [|e es He _ IHes]; intros Hp Hwf files.
  - simpl. now rewrite app_nil_r.
  - simpl in Hwf. apply andb_true_iff in Hwf as [Hwe Hwes].
    rewrite forOf_cons. specialize (He parents files Hp Hwe).
    destruct (scanEntry cwd config root (underRoot root parents) files e) as [files1|].
    + specialize (IHes Hp Hwes files1).
      destruct (forOf _ es files1) as [result|].
      * subst. unfold expectedFiles. simpl.
        now rewrite List.filter_app, map_app, app_assoc.
      * simpl. rewrite IHes. apply andb_false_r.
    + simpl. now rewrite He.
Qed.

(** One iteration on a well-formed entry: it fails only on a directory
    that cannot be read, and otherwise adds exactly the eligible files
    below the entry, depth first. *)
Lemma scanEntry_exact (entry : Dirent) :
  forall parents files,
    Forall (fun n => simpleName n = true) parents ->
    wellFormed entry = true ->
    match scanEntry cwd config root (underRoot root parents) files entry with
    | Some result =>
        result = files ++ expectedFiles root config (filesUnder parents entry)
    | None => readable entry = false
    end.
Proof.
  induction entry as [n|n|n entries IH] using Dirent_ind; intros parents files Hp Hwf;
    cbn [wellFormed entryName] in Hwf; apply andb_true_iff in Hwf as [Hn Hwf];
    assert (Hpn : Forall (fun n => simpleName n = true) (parents ++ [n]))
      by (apply Forall_app; split; [exact Hp|now constructor]);
    cbn [scanEntry entryName isDirectory];
    rewrite <- underRoot_snoc, (relative_underRoot cwd root (parents ++ [n]) Hroot Hpn)
      by (destruct parents; discriminate);
    unfold expectedFiles;
    destruct (existsb _ (blacklist config)) eqn:Hbl.
  - simpl. rewrite (blacklisted_below parents n [] Hbl). simpl. now rewrite app_nil_r.
  - rewrite andb_true_r. unfold eligibleFile. simpl.
    destruct (_ && _) eqn:Hwl.
    + rewrite (skipped_not_eligible _ _ Hwl). simpl. now rewrite app_nil_r.
    + now rewrite (pushed_eligible _ _ Hbl Hwl).
  - simpl. now rewrite app_nil_r.
  - now rewrite andb_false_r.
  - rewrite filter_none; [simpl; now rewrite app_nil_r|].
    intros segs Hsegs. apply filesUnder_extends in Hsegs as [more ->].
    now apply blacklisted_below.
  - rewrite andb_false_r.
    pose proof (forOf_exact entries (parents ++ [n]) IH Hpn Hwf []) as Hsub.
    destruct (forOf _ entries []) as [subFiles|]; [|exact Hsub].
    now subst.
Qed.

(** The whole scan of a well-formed tree. *)
Lemma getAllFiles_exact (entries : list Dirent) :
  forallb wellFormed entries = true ->
  match getAllFiles cwd root config root (Some entries) with
  | Some allFiles => allFiles = expectedFiles root config (flat_map (filesUnder []) entries)
  | None => forallb readable entries = false
  end.
Proof.
  intros Hwf. unfold getAllFiles.
  apply (forOf_exact entries [] (proj2 (List.Forall_forall _ _)
           (fun e _ => scanEntry_exact e)) (List.Forall_nil _) Hwf []).
Qed.

(** Made relative to the root again, the expected paths are the
    eligible relative paths. *)
Lemma expectedFiles_relative (found : list (list string)) :
  (forall segs, In segs found ->
                Forall (fun n => simpleName n = true) segs /\ segs <> []) ->
  map (relative cwd root) (expectedFiles root config found)
  = List.filter (eligible config) (map joinSegs found).
Proof.
  intros Hfound. unfold expectedFiles. rewrite filter_map_comm, map_map.
  apply map_ext_in. intros segs Hsegs. apply filter_In in Hsegs as [Hsegs _].
  destruct (Hfound segs Hsegs) as [Hnames Hne]. now apply relative_underRoot.
Qed.

Lemma found_names (entries : list Dirent) (segs : list string) :
  forallb wellFormed entries = true ->
  In segs (flat_map (filesUnder []) entries) ->
  Forall (fun n => simpleName n = true) segs /\ segs <> [].
Proof.
  rewrite forallb_forall, in_flat_map. intros Hwf [e [He Hsegs]]. split.
  - apply (filesUnder_names e [] segs (Hwf e He) (List.Forall_nil _) Hsegs).
  - apply filesUnder_extends in Hsegs as [more ->]. discriminate.
Qed.

End Exact.

(** The candidate paths of a readable well-formed tree scanned from the
    working directory, as [main] does. *)
Lemma candidates_exact (cwd : string) (config : Config) (entries : list Dirent) :
  isAbsolute cwd = true ->
  forallb wellFormed entries = true ->
  forallb readable entries = true ->
  exists allFiles,
    getAllFiles cwd cwd config cwd (Some entries) = Some allFiles /\
    allFiles = expectedFiles cwd config (flat_map (filesUnder []) entries) /\
    candidatePaths cwd allFiles = List.filter (eligible config) (treeFiles entries).
Proof.
  intros Hcwd Hwf Hread.
  pose proof (getAllFiles_exact cwd cwd config Hcwd entries Hwf) as H.
  destruct (getAllFiles cwd cwd config cwd (Some entries)) as [allFiles|];
    [|congruence].
  exists allFiles. split; [reflexivity|]. split; [exact H|]. subst allFiles.
  apply (expectedFiles_relative cwd cwd config Hcwd).
  intros segs. now apply found_names.
Qed.

Lemma existsb_false {A : Type} (f : A -> bool) (l : list A) :
  existsb f l = false <-> forall x, In x l -> f x = false.
Proof.
  induction l as [|a l IH]; simpl.
  - split; [intros _ x []|reflexivity].
  - rewrite orb_false_iff, IH. split.
    + intros [Ha Hl] x [<-|Hx]; auto.
    + intros H. split; [apply H; now left|]. intros x Hx. apply H. now right.
Qed.

(** The filter rule in words. *)
Lemma eligible_spec (config : Config) (p : string) :
  eligible config p = true <->
  (forall b, In b (blacklist config) -> includes p b = false) /\
  (whitelist config = [] \/ exists w, In w (whitelist config) /\ startsWith p w = true).
Proof.
  unfold eligible.
  rewrite andb_true_iff, negb_true_iff, existsb_false, orb_true_iff, Nat.eqb_eq,
    existsb_exists.
  split; intros [Hbl [Hwl|Hwl]]; (split; [exact Hbl|]); auto.
  - left. now destruct (whitelist config).
  - left. now rewrite Hwl.
Qed.

(** C1. Blacklist precedence: a relative path in which a blacklist
    entry occurs is not among the candidate paths, whatever the
    whitelist holds and whatever the directory tree is. *)
Theorem blacklist_precedence (cwd : string) (config : Config)
    (readdir : option (list Dirent)) (allFiles : list string) (p b pre post : string) :
  getAllFiles cwd cwd config cwd readdir = Some allFiles ->
  In b (blacklist config) ->
  p = pre +:+ b +:+ post ->
  ~ In p (candidatePaths cwd allFiles).
Proof.
  intros Hscan Hb Hsub Hp.
  apply getAllFiles_eligible in Hscan. rewrite List.Forall_forall in Hscan.
  unfold candidatePaths in Hp. apply in_map_iff in Hp as [f [<- Hf]].
  specialize (Hscan f Hf). unfold passes, eligible in Hscan.
  apply andb_true_iff in Hscan as [Hbl _]. apply negb_true_iff in Hbl.
  assert (Hinc : existsb (fun b0 => includes (relative cwd cwd f) b0) (blacklist config) = true).
  { apply existsb_exists. exists b. split; [exact Hb|].
    apply includes_spec. eauto. }
  congruence.
Qed.

Lemma blacklist_precedence_witness :
  getAllFiles "/proj" "/proj" secretConfig "/proj" (Some secretTree)
    = Some ["/proj/src/app.js"]
  /\ In "secret" (blacklist secretConfig)
  /\ "src/secret.txt" = "src/" +:+ "secret" +:+ ".txt"
  /\ startsWith "src/secret.txt" "src" = true
  /\ ~ In "src/secret.txt" (candidatePaths "/proj" ["/proj/src/app.js"]).
Proof.
  assert (H1 : getAllFiles "/proj" "/proj" secretConfig "/proj" (Some secretTree)
               = Some ["/proj/src/app.js"]) by reflexivity.
  assert (H2 : In "secret" (blacklist secretConfig)) by (simpl; auto).
  assert (H3 : "src/secret.txt" = "src/" +:+ "secret" +:+ ".txt") by reflexivity.
  split; [exact H1|]. split; [exact H2|]. split; [exact H3|]. split; [reflexivity|].
  exact (blacklist_precedence "/proj" secretConfig (Some secretTree)
           ["/proj/src/app.js"] "src/secret.txt" "secret" "src/" ".txt" H1 H2 H3).
Defined.

(** C2. Whitelist prefix semantics: for a readable tree scanned from
    the working directory, a path is a candidate exactly when it is the
    relative path of a file of the tree, at any depth, in which no
    blacklist entry occurs and which, unless the whitelist is empty,
    starts with a whitelist entry.  The directories on the way to the
    file are not asked to match the whitelist. *)
Theorem whitelist_prefix_semantics (cwd : string) (config : Config) (entries : list Dirent) :
  isAbsolute cwd = true ->
  forallb wellFormed entries = true ->
  forallb readable entries = true ->
  exists allFiles,
    getAllFiles cwd cwd config cwd (Some entries) = Some allFiles /\
    forall p,
      In p (candidatePaths cwd allFiles) <->
      In p (treeFiles entries)
      /\ (forall b, In b (blacklist config) -> includes p b = false)
      /\ (whitelist config = [] \/
          exists w, In w (whitelist config) /\ startsWith p w = true).
Proof.
  intros Hcwd Hwf Hread.
  destruct (candidates_exact cwd config entries Hcwd Hwf Hread)
    as [allFiles [Hscan [_ Hcand]]].
  exists allFiles. split; [exact Hscan|]. intros p.
  now rewrite Hcand, filter_In, eligible_spec.
Qed.

Lemma whitelist_prefix_semantics_witness :
  isAbsolute "/proj" = true
  /\ forallb wellFormed whitelistTree = true
  /\ forallb readable whitelistTree = true
  /\ exists allFiles,
      getAllFiles "/proj" "/proj" whitelistConfig "/proj" (Some whitelistTree)
        = Some allFiles /\
      forall p,
        In p (candidatePaths "/proj" allFiles) <->
        In p (treeFiles whitelistTree)
        /\ (forall b, In b (blacklist whitelistConfig) -> includes p b = false)
        /\ (whitelist whitelistConfig = [] \/
            exists w, In w (whitelist whitelistConfig) /\ startsWith p w = true).
Proof.
  assert (H1 : isAbsolute "/proj" = true) by reflexivity.
  assert (H2 : forallb wellFormed whitelistTree = true) by reflexivity.
  assert (H3 : forallb readable whitelistTree = true) by reflexivity.
  split; [exact H1|]. split; [exact H2|]. split; [exact H3|].
  exact (whitelist_prefix_semantics "/proj" whitelistConfig whitelistTree H1 H2 H3).
Defined.

(** In that tree the whitelist entry [src/app] matches neither
    directory; both are traversed, and [src/app.js] is found. *)
Example whitelist_deeper_match :
  option_map (candidatePaths "/proj")
    (getAllFiles "/proj" "/proj" whitelistConfig "/proj" (Some whitelistTree))
  = Some ["src/app.js"].
Proof. reflexivity. Qed.

(** The example of the specification: with the whitelist [["src"]],
    [src/app.js] is a candidate and [lib/app.js] is not. *)
Example whitelist_src_example :
  option_map (candidatePaths "/proj")
    (getAllFiles "/proj" "/proj" {| whitelist := ["src"]; blacklist := [] |} "/proj"
       (Some [Dir "lib" (Some [File "app.js"]); Dir "src" (Some [File "app.js"])]))
  = Some ["src/app.js"].
Proof. reflexivity. Qed.

(** C3, amended. For a readable tree, [getAllFiles] returns one path
    per eligible file, in depth-first order of the listings: the scan
    root joined with the file's relative path.  The candidate paths
    [main] derives from them are the eligible relative paths, in the
    same order. *)
Theorem scan_depth_first (cwd : string) (config : Config) (entries : list Dirent) :
  isAbsolute cwd = true ->
  forallb wellFormed entries = true ->
  forallb readable entries = true ->
  exists allFiles,
    getAllFiles cwd cwd config cwd (Some entries) = Some allFiles /\
    allFiles = map (join cwd) (List.filter (eligible config) (treeFiles entries)) /\
    candidatePaths cwd allFiles = List.filter (eligible config) (treeFiles entries).
Proof.
  intros Hcwd Hwf Hread.
  destruct (candidates_exact cwd config entries Hcwd Hwf Hread)
    as [allFiles [Hscan [Hfull Hcand]]].
  exists allFiles. split; [exact Hscan|]. split; [|exact Hcand].
  rewrite Hfull. unfold expectedFiles, treeFiles.
  rewrite filter_map_comm, map_map. apply map_ext_in.
  intros segs Hsegs. apply filter_In in Hsegs as [Hsegs _].
  destruct (found_names entries segs Hwf Hsegs) as [Hnames Hne].
  now apply (underRoot_join cwd).
Qed.

Lemma scan_depth_first_witness :
  isAbsolute "/proj" = true
  /\ forallb wellFormed exampleTree = true
  /\ forallb readable exampleTree = true
  /\ exists allFiles,
      getAllFiles "/proj" "/proj" defaultConfig "/proj" (Some exampleTree) = Some allFiles /\
      allFiles = map (join "/proj")
                   (List.filter (eligible defaultConfig) (treeFiles exampleTree)) /\
      candidatePaths "/proj" allFiles
      = List.filter (eligible defaultConfig) (treeFiles exampleTree).
Proof.
  assert (H1 : isAbsolute "/proj" = true) by reflexivity.
  assert (H2 : forallb wellFormed exampleTree = true) by reflexivity.
  assert (H3 : forallb readable exampleTree = true) by reflexivity.
  split; [exact H1|]. split; [exact H2|]. split; [exact H3|].
  exact (scan_depth_first "/proj" defaultConfig exampleTree H1 H2 H3).
Defined.

(** The order of that scan: the files of [src] stand where [src] is
    listed, and what is below [.git] is left out. *)
Example scan_order_example :
  treeFiles exampleTree
    = ["b.txt"; "src/z.js"; "src/lib/x.js"; "src/a.js"; ".git/config"; "a.txt"]
  /\ getAllFiles "/proj" "/proj" defaultConfig "/proj" (Some exampleTree)
     = Some ["/proj/b.txt"; "/proj/src/z.js"; "/proj/src/lib/x.js"; "/proj/src/a.js";
             "/proj/a.txt"].
Proof. split; reflexivity. Qed.

(** C3 as stated fails: what [getAllFiles] returns for [a.txt] under
    [/proj] is the full path, not the path relative to the scan root. *)
Lemma scan_returns_full_paths :
  getAllFiles "/proj" "/proj" defaultConfig "/proj" (Some [File "a.txt"])
    = Some ["/proj/a.txt"]
  /\ List.filter (eligible defaultConfig) (treeFiles [File "a.txt"]) = ["a.txt"]
  /\ getAllFiles "/proj" "/proj" defaultConfig "/proj" (Some [File "a.txt"])
     <> Some (List.filter (eligible defaultConfig) (treeFiles [File "a.txt"]))
  /\ isAbsolute "/proj/a.txt" = true
  /\ candidatePaths "/proj" ["/proj/a.txt"] = ["a.txt"].
Proof.
  split; [reflexivity|]. split; [reflexivity|]. split; [|split; reflexivity].
  intros H. vm_compute in H. discriminate H.
Qed.

End ScanFacts.

(** ** The output file name *)
Module FilenameFacts.
Import Js JsFacts Spec.

(** [runs] cuts a string into its maximal runs: put together they are
    the string, no run is empty, the characters of a run are of its
    class, and neighbours are of different classes. *)
Lemma runs_spec (s : string) :
  fold_right (fun (kr : bool * string) acc => kr.2 +:+ acc) "" (runs s) = s
  /\ Forall (fun kr : bool * string =>
               kr.2 <> "" /\ allChars (fun c => Bool.eqb (isAlnum c) kr.1) kr.2 = true)
            (runs s)
  /\ (forall k1 r1 k2 r2 before after,
        runs s = before ++ (k1, r1) :: (k2, r2) :: after -> k1 <> k2).
Proof.
  induction s as [|c s (Hcat & Hruns & Halt)]; simpl.
  - split; [reflexivity|]. split; [constructor|]. intros ? ? ? ? [|? ?]; discriminate.
  - destruct (runs s) as [|[k r] rest] eqn:E.
    + simpl in Hcat. subst s. split; [reflexivity|]. split.
      * repeat constructor; [discriminate|]. simpl. now rewrite eqb_reflx.
      * intros ? ? ? ? [|? [|? ?]]; discriminate.
    + inversion Hruns as [|? ? [Hne Hall] Hrest]; subst. simpl in *.
      destruct (Bool.eqb k (isAlnum c)) eqn:Hk.
      * apply eqb_prop in Hk. subst k. split; [reflexivity|]. split.
        -- constructor; [|exact Hrest]. simpl. rewrite eqb_reflx. now split.
        -- intros k1 r1 k2 r2 [|x before] after H; simpl in H.
           ++ injection H as <- _ H. apply (Halt (isAlnum c) r k2 r2 [] after).
              simpl. now rewrite H.
           ++ injection H as _ H.
              apply (Halt k1 r1 k2 r2 ((isAlnum c, r) :: before) after).
              simpl. now rewrite H.
      * split; [reflexivity|]. split.
        -- constructor; [|exact Hruns]. simpl. rewrite eqb_reflx. now split.
        -- intros k1 r1 k2 r2 [|x before] after H; simpl in H.
           ++ injection H as <- _ <- _ _. intros <-. now rewrite eqb_reflx in Hk.
           ++ injection H as _ H. now apply (Halt k1 r1 k2 r2 before after).
Qed.

(** The scan of the first regular expression replaces run by run. *)
Lemma replaceNonAlnum_runs (s : string) :
  replaceNonAlnum false s = render (runs s) /\
  replaceNonAlnum true s = renderSkip (runs s).
Proof.
  induction s as [|c s [IHf IHt]]; [split; reflexivity|].
  cbn [replaceNonAlnum runs]. rewrite IHf, IHt.
  destruct (isAlnum c) eqn:Hc, (runs s) as [|[[|] r] rest]; split; reflexivity.
Qed.

Lemma dropTrailingDashes_empty (s : string) :
  dropTrailingDashes s = "" <-> allChars isDash s = true.
Proof.
  induction s as [|c s IH]; simpl; [tauto|].
  rewrite andb_true_iff, <- IH.
  destruct (dropTrailingDashes s), (isDash c); intuition discriminate.
Qed.

(** Away from the start, the second regular expression removes the
    dashes that end the string. *)
Lemma removeEdgeDashes_inner (s : string) :
  removeEdgeDashes false s = dropTrailingDashes s.
Proof.
  induction s as [|c s IH]; [reflexivity|]. simpl. rewrite IH.
  pose proof (dropTrailingDashes_empty s) as Hempty.
  destruct (allChars isDash s).
  - rewrite (proj2 Hempty eq_refl). now destruct (isDash c).
  - destruct (dropTrailingDashes s) eqn:E; [|now destruct (isDash c)].
    discriminate (proj1 Hempty eq_refl).
Qed.

Lemma removeEdgeDashes_strip (s : string) :
  removeEdgeDashes true s = dropTrailingDashes (dropLeadingDashes s).
Proof.
  induction s as [|c s IH]; [reflexivity|].
  cbn [removeEdgeDashes dropLeadingDashes]. destruct (isDash c) eqn:Hc; [exact IH|].
  rewrite <- removeEdgeDashes_inner. simpl. now rewrite Hc.
Qed.

Lemma slice0_takeChars (n : nat) (s : string) : slice0 n s = takeChars n s.
Proof.
  unfold slice0. revert n; induction s as [|c s IH]; intros [|n]; simpl;
    try reflexivity.
  now rewrite IH.
Qed.

Lemma takeChars_all (n : nat) (s : string) : String.length s <= n -> takeChars n s = s.
Proof.
  revert n; induction s as [|c s IH]; intros [|n]; simpl; try reflexivity; try lia.
  intros H. rewrite IH; [reflexivity|lia].
Qed.

Lemma takeChars_length (n : nat) (s : string) :
  n <= String.length s -> String.length (takeChars n s) = n.
Proof.
  revert n; induction s as [|c s IH]; intros [|n]; simpl; try reflexivity; try lia.
  intros H. rewrite IH; [reflexivity|lia].
Qed.

Lemma takeChars_short (n : nat) (s : string) : String.length (takeChars n s) <= n.
Proof.
  revert n; induction s as [|c s IH]; intros [|n]; simpl; try lia.
  specialize (IH n). lia.
Qed.

(** C7. [generateFilenameFromPrompt] is the derivation the
    specification describes (lowercase, one dash per maximal run of
    other characters, no dash at either end, at most 50 characters,
    ["prompt"] when nothing is left); the name has between 1 and 50
    characters; and the two prompts of the specification are mapped as
    stated.  Being a function, it yields the same name for the same
    prompt. *)
Theorem filename_derivation :
  (forall prompt, generateFilenameFromPrompt prompt = deriveFilename prompt)
  /\ (forall prompt, 1 <= String.length (generateFilenameFromPrompt prompt) <= 50)
  /\ generateFilenameFromPrompt "Hello, World!!!" = "hello-world"
  /\ generateFilenameFromPrompt "   " = "prompt".
Proof.
  assert (Hsame : forall prompt, generateFilenameFromPrompt prompt = deriveFilename prompt);
    [|split; [exact Hsame|split; [|split; reflexivity]]].
  2: { intros prompt. rewrite Hsame. unfold deriveFilename. cbv zeta.
       pose proof (takeChars_short 50 (dropTrailingDashes (dropLeadingDashes
                     (render (runs (toLowerCase prompt)))))) as Hshort.
       destruct (takeChars 50 _) as [|c t]; simpl in *; lia. }
  intros prompt. unfold generateFilenameFromPrompt, deriveFilename, baseName.
  rewrite (proj1 (replaceNonAlnum_runs _)), removeEdgeDashes_strip, slice0_takeChars.
  set (stripped := dropTrailingDashes _).
  destruct (Nat.ltb_spec 50 (String.length stripped)) as [_|Hshort]; [reflexivity|].
  now rewrite takeChars_all.
Qed.

Lemma takeChars_last (n : nat) (s : string) (c : ascii) :
  S n <= String.length s ->
  endsWithChar (takeChars (S n) s) c = true -> String.get n s = Some c.
Proof.
  revert s; induction n as [|n IH]; intros [|a s]; simpl; try lia.
  - intros _. destruct s; simpl; now intros ->%Ascii.eqb_eq.
  - intros Hlen. destruct s as [|b s]; [simpl in Hlen; lia|].
    intros H. apply IH; [simpl in *; lia|exact H].
Qed.

(** C8, amended. When the lowercased, dashed and stripped form of the
    prompt has at least 50 characters, the file name is its first 50
    characters, so exactly 50 characters long; it does not end with a
    dash when the 50th character of that form is not a dash. *)
Theorem truncated_filename (prompt : string) :
  50 <= String.length (baseName prompt) ->
  generateFilenameFromPrompt prompt = slice0 50 (baseName prompt)
  /\ String.length (generateFilenameFromPrompt prompt) = 50
  /\ (String.get 49 (baseName prompt) <> Some "-"%char ->
      endsWithChar (generateFilenameFromPrompt prompt) "-" = false).
Proof.
  intros Hlen.
  assert (Hname : generateFilenameFromPrompt prompt = takeChars 50 (baseName prompt)).
  { unfold generateFilenameFromPrompt. rewrite slice0_takeChars.
    assert (Hcut : (if 50 <? String.length (baseName prompt)
                    then takeChars 50 (baseName prompt) else baseName prompt)
                   = takeChars 50 (baseName prompt)).
    { destruct (Nat.ltb_spec 50 (String.length (baseName prompt))); [reflexivity|].
      now rewrite takeChars_all. }
    cbv zeta. rewrite Hcut.
    pose proof (takeChars_length 50 (baseName prompt) Hlen) as H50.
    destruct (takeChars 50 (baseName prompt)); [discriminate|reflexivity]. }
  rewrite slice0_takeChars, Hname. split; [reflexivity|]. split.
  - now apply takeChars_length.
  - intros Hlast. destruct (endsWithChar _ "-") eqn:E; [|reflexivity].
    now apply takeChars_last in E.
Qed.

Lemma truncated_filename_witness :
  String.length (repeatChar 200 "a") = 200
  /\ 50 <= String.length (baseName (repeatChar 200 "a"))
  /\ generateFilenameFromPrompt (repeatChar 200 "a") = slice0 50 (baseName (repeatChar 200 "a"))
  /\ String.length (generateFilenameFromPrompt (repeatChar 200 "a")) = 50
  /\ (String.get 49 (baseName (repeatChar 200 "a")) <> Some "-"%char ->
      endsWithChar (generateFilenameFromPrompt (repeatChar 200 "a")) "-" = false).
Proof.
  split; [reflexivity|].
  assert (H : 50 <= String.length (baseName (repeatChar 200 "a"))) by (vm_compute; lia).
  split; [exact H|]. exact (truncated_filename (repeatChar 200 "a") H).
Defined.

(** C8 as stated fails on two prompts of 200 characters: 200 spaces
    give the fallback name, and a space in 50th place gives a name of
    50 characters that ends with a dash. *)
Lemma two_hundred_characters_counterexample :
  String.length (repeatChar 200 " ") = 200
  /\ generateFilenameFromPrompt (repeatChar 200 " ") = "prompt"
  /\ String.length (generateFilenameFromPrompt (repeatChar 200 " ")) <> 50
  /\ String.length (repeatChar 49 "a" +:+ " " +:+ repeatChar 150 "b") = 200
  /\ generateFilenameFromPrompt (repeatChar 49 "a" +:+ " " +:+ repeatChar 150 "b")
     = repeatChar 49 "a" +:+ "-"
  /\ endsWithChar
       (generateFilenameFromPrompt (repeatChar 49 "a" +:+ " " +:+ repeatChar 150 "b")) "-"
     = true.
Proof.
  split; [reflexivity|]. split; [reflexivity|]. split; [|repeat split; reflexivity].
  intros H. vm_compute in H. discriminate H.
Qed.

End FilenameFacts.

(** ** The selection loop *)
Module SessionFacts.
Import Js JsFacts.

Lemma allChars_trimStart (s : string) :
  allChars isWhiteSpace (trimStart s) = allChars isWhiteSpace s.
Proof.
  induction s as [|c s IH]; [reflexivity|]. simpl.
  destruct (isWhiteSpace c) eqn:Hc; [exact IH|]. simpl. now rewrite Hc.
Qed.

Lemma trimEnd_empty (s : string) :
  trimEnd s = "" <-> allChars isWhiteSpace s = true.
Proof.
  destruct s as [|c s]; [simpl; tauto|].
  cbn [trimEnd]. destruct (allChars isWhiteSpace (String c s)); split;
    (reflexivity || discriminate).
Qed.

(** A string trims to nothing exactly when it is white space only. *)
Lemma trim_empty (s : string) :
  String.eqb (trim s) "" = allChars isWhiteSpace s.
Proof.
  unfold trim. pose proof (trimEnd_empty (trimStart s)) as H.
  rewrite allChars_trimStart in H.
  destruct (String.eqb_spec (trimEnd (trimStart s)) "") as [E|E];
    destruct (allChars isWhiteSpace s); try reflexivity.
  - now apply H in E.
  - now destruct E; apply H.
Qed.

(** C4, amended. What the prompt is offered: when the text typed is
    empty or white space only, ["Done"] followed by the candidate
    paths in their order; otherwise the items of the fuzzy search for
    the text as typed, with nothing added. *)
Theorem source_lists (cwd : string) (fuseSearch : list string -> string -> list FuseResult)
    (allFiles : list string) (input : option string) :
  (allChars isWhiteSpace (queryText input) = true ->
   source cwd fuseSearch allFiles input = "Done" :: candidatePaths cwd allFiles)
  /\ (allChars isWhiteSpace (queryText input) = false ->
      source cwd fuseSearch allFiles input
      = map item (fuseSearch (candidatePaths cwd allFiles) (queryText input))).
Proof.
  unfold source. rewrite trim_empty. split; intros ->; reflexivity.
Qed.

(** C4 as stated fails on a query that is not empty: for a single
    space the prompt is offered ["Done"] and all candidates, not the
    result of the search. *)
Lemma blank_query_counterexample :
  queryText (Some " ") <> ""
  /\ source "/proj" substringSearch ["/proj/a.txt"; "/proj/b c.txt"] (Some " ")
     = ["Done"; "a.txt"; "b c.txt"]
  /\ map item (substringSearch (candidatePaths "/proj" ["/proj/a.txt"; "/proj/b c.txt"])
                 (queryText (Some " ")))
     = ["b c.txt"]
  /\ source "/proj" substringSearch ["/proj/a.txt"; "/proj/b c.txt"] (Some " ")
     <> map item (substringSearch (candidatePaths "/proj" ["/proj/a.txt"; "/proj/b c.txt"])
                    (queryText (Some " "))).
Proof.
  split; [discriminate|]. split; [reflexivity|]. split; [reflexivity|].
  intros H. vm_compute in H. discriminate H.
Qed.

(** Whatever the index, as long as it returns documents only: a blank
    query is not answered by the search when no candidate is named
    ["Done"]. *)
Lemma blank_query_not_searched (cwd : string)
    (fuseSearch : list string -> string -> list FuseResult) (allFiles : list string) :
  (forall docs query r, In r (fuseSearch docs query) -> In (item r) docs) ->
  ~ In "Done" (candidatePaths cwd allFiles) ->
  source cwd fuseSearch allFiles (Some " ")
  <> map item (fuseSearch (candidatePaths cwd allFiles) " ").
Proof.
  intros Hitems Hdone E. apply Hdone.
  assert (Hin : In "Done" (source cwd fuseSearch allFiles (Some " "))) by now left.
  rewrite E in Hin. apply in_map_iff in Hin as [r [<- Hr]]. now apply Hitems in Hr.
Qed.

Lemma arrayIncludes_In (arr : list string) (x : string) :
  arrayIncludes arr x = true <-> In x arr.
Proof.
  unfold arrayIncludes. rewrite existsb_exists. split.
  - intros [y [Hy ->%String.eqb_eq]]. exact Hy.
  - intros Hx. exists x. split; [exact Hx|apply String.eqb_refl].
Qed.

Lemma arrayIncludes_not_In (arr : list string) (x : string) :
  arrayIncludes arr x = false <-> ~ In x arr.
Proof.
  rewrite <- arrayIncludes_In. destruct (arrayIncludes arr x); split;
    (congruence || intros H; now destruct H).
Qed.

(** What an iteration does to the selection. *)
Lemma loopBody_selected (st : LoopState) (file : string) :
  selectedFiles (loopBody st file) = selectedFiles st
  \/ (selectedFiles (loopBody st file) = selectedFiles st ++ [file]
      /\ file <> "Done" /\ ~ In file (selectedFiles st)).
Proof.
  unfold loopBody. destruct (String.eqb_spec file "Done") as [|Hdone]; [now left|].
  destruct (negb (String.eqb file "")); [|now left]. simpl.
  destruct (arrayIncludes (selectedFiles st) file) eqn:Hin; [now left|].
  right. split; [reflexivity|]. split; [exact Hdone|].
  now apply arrayIncludes_not_In.
Qed.

Lemma NoDup_snoc (l : list string) (x : string) :
  List.NoDup l -> ~ In x l -> List.NoDup (l ++ [x]).
Proof.
  intros Hl Hx. apply List.NoDup_rev in Hl.
  rewrite <- (rev_involutive (l ++ [x])). apply List.NoDup_rev.
  rewrite rev_unit. constructor; [|exact Hl].
  rewrite <- in_rev. exact Hx.
Qed.

Section Loop.

Variable cwd : string.
Variable fuseSearch : list string -> string -> list FuseResult.
Variable allFiles : list string.

(** What [fuse.search] returns are documents of the index. *)
Hypothesis fuse_items :
  forall docs query r, In r (fuseSearch docs query) -> In (item r) docs.

(** A path offered to the prompt is ["Done"] or a candidate. *)
Lemma offered_candidate (step : option string * string) :
  offered cwd fuseSearch allFiles step ->
  step.2 = "Done" \/ In step.2 (candidatePaths cwd allFiles).
Proof.
  unfold offered, source.
  destruct (String.eqb _ ""); simpl.
  - intros [<-|H]; [now left|now right].
  - rewrite in_map_iff. intros [r [<- Hr]]. right. now apply fuse_items in Hr.
Qed.

Lemma loopBody_invariant (st : LoopState) (step : option string * string) :
  offered cwd fuseSearch allFiles step ->
  selectionInvariant (candidatePaths cwd allFiles) st ->
  selectionInvariant (candidatePaths cwd allFiles) (loopBody st step.2).
Proof.
  intros Hoff [Hnodup Hsub]. unfold selectionInvariant.
  destruct (loopBody_selected st step.2) as [->|[-> [Hdone Hnew]]]; [now split|].
  split; [now apply NoDup_snoc|].
  intros f [Hf|[<-|[]]]%in_app_iff; [now apply Hsub|].
  destruct (offered_candidate step Hoff); [contradiction|assumption].
Qed.

Lemma selectionLoop_invariant (script : list (option string * string)) :
  Forall (offered cwd fuseSearch allFiles) script ->
  forall st, selectionInvariant (candidatePaths cwd allFiles) st ->
             selectionInvariant (candidatePaths cwd allFiles)
               (selectionLoop (map snd script) st).
Proof.
  induction 1 as [|step script Hstep _ IH]; intros st Hst; [exact Hst|].
  simpl. destruct (addingFiles st); [|exact Hst].
  apply IH. now apply loopBody_invariant.
Qed.

End Loop.

(** C5. Selection invariant: when the search only returns documents of
    its index and every answer of the prompt is an entry of the list
    it was offered, then after every iteration (after the first [n]
    interactions, for every [n]) the selection has no duplicates and
    holds candidate paths only. *)
Theorem selection_invariant (cwd : string)
    (fuseSearch : list string -> string -> list FuseResult)
    (allFiles : list string) (script : list (option string * string)) :
  (forall docs query r, In r (fuseSearch docs query) -> In (item r) docs) ->
  Forall (offered cwd fuseSearch allFiles) script ->
  forall n,
    selectionInvariant (candidatePaths cwd allFiles)
      (selectionLoop (map snd (take n script)) initialState).
Proof.
  intros Hfuse Hscript n.
  apply (selectionLoop_invariant cwd fuseSearch allFiles Hfuse).
  - now apply Forall_take.
  - split; [constructor|intros f []].
Qed.

Lemma substringSearch_items (docs : list string) (query : string) (r : FuseResult) :
  In r (substringSearch docs query) -> In (item r) docs.
Proof.
  unfold substringSearch. rewrite in_map_iff.
  intros [[d i] [<- [Hd _]%filter_In]]. simpl. now apply in_combine_l in Hd.
Qed.

Lemma selection_invariant_witness :
  Forall (offered "/proj" substringSearch ["/proj/a.txt"; "/proj/b c.txt"])
    [(None, "a.txt"); (Some "c", "b c.txt"); (Some " ", "a.txt"); (None, "Done")]
  /\ selectedFiles (selectionLoop ["a.txt"; "b c.txt"; "a.txt"] initialState)
     = ["a.txt"; "b c.txt"]
  /\ selectionInvariant (candidatePaths "/proj" ["/proj/a.txt"; "/proj/b c.txt"])
       (selectionLoop
          (map snd (take 3 [(None, "a.txt"); (Some "c", "b c.txt"); (Some " ", "a.txt");
                            (None : option string, "Done")]))
          initialState).
Proof.
  assert (Hscript :
    Forall (offered "/proj" substringSearch ["/proj/a.txt"; "/proj/b c.txt"])
      [(None, "a.txt"); (Some "c", "b c.txt"); (Some " ", "a.txt"); (None, "Done")])
    by (repeat constructor; vm_compute; auto 6).
  split; [exact Hscript|]. split; [reflexivity|].
  exact (selection_invariant "/proj" substringSearch ["/proj/a.txt"; "/proj/b c.txt"] _
           substringSearch_items Hscript 3).
Defined.

(** C6. Selection idempotence: an iteration whose answer is already
    selected leaves the selection as it is. *)
Theorem reselection_idempotent (st : LoopState) (file : string) :
  In file (selectedFiles st) ->
  selectedFiles (loopBody st file) = selectedFiles st
  /\ length (selectedFiles (loopBody st file)) = length (selectedFiles st).
Proof.
  intros Hin.
  assert (H : selectedFiles (loopBody st file) = selectedFiles st).
  { destruct (loopBody_selected st file) as [H|[_ [_ Hnew]]]; [exact H|contradiction]. }
  now rewrite H.
Qed.

Lemma reselection_idempotent_witness :
  In "b.txt" ["a.txt"; "b.txt"]
  /\ selectedFiles (loopBody (selectionLoop ["a.txt"; "b.txt"] initialState) "b.txt")
     = ["a.txt"; "b.txt"].
Proof.
  split; [simpl; auto|].
  apply (reselection_idempotent (selectionLoop ["a.txt"; "b.txt"] initialState) "b.txt").
  simpl. auto.
Defined.

Lemma loopBody_never_adds_done (st : LoopState) (file : string) :
  arrayIncludes (selectedFiles st) "Done" = false ->
  arrayIncludes (selectedFiles (loopBody st file)) "Done" = false.
Proof.
  rewrite !arrayIncludes_not_In. intros Hst.
  destruct (loopBody_selected st file) as [->|[-> [Hdone _]]]; [exact Hst|].
  intros [H|[H|[]]]%in_app_iff; [contradiction|congruence].
Qed.

Lemma selectionLoop_never_adds_done (answers : list string) :
  forall st, arrayIncludes (selectedFiles st) "Done" = false ->
             arrayIncludes (selectedFiles (selectionLoop answers st)) "Done" = false.
Proof.
  induction answers as [|file answers IH]; intros st Hst; [exact Hst|].
  simpl. destruct (addingFiles st); [|exact Hst].
  now apply IH, loopBody_never_adds_done.
Qed.

(** C10. The answer ["Done"] ends the loop without being appended, in
    every state, so whatever the prompt answers the selection never
    holds ["Done"], also when a candidate file has that name. *)
Theorem done_never_selected (st : LoopState) (answers : list string) :
  selectedFiles (loopBody st "Done") = selectedFiles st
  /\ addingFiles (loopBody st "Done") = false
  /\ selectionLoop answers (loopBody st "Done") = loopBody st "Done"
  /\ arrayIncludes (selectedFiles (selectionLoop answers initialState)) "Done" = false.
Proof.
  split; [reflexivity|]. split; [reflexivity|]. split.
  - now destruct answers.
  - now apply selectionLoop_never_adds_done.
Qed.

End SessionFacts.

(** ** The document *)
Module AssemblyFacts.

Lemma await_rejected {A B : Type} (m : Async A) (k : A -> Async B) (fs : FileSystem)
    (calls : list FsCall) (e : FsError) :
  m fs = (calls, inl e) -> await m k fs = (calls, inl e).
Proof. intros H. unfold await. now rewrite H. Qed.

Lemma await_resolved {A B : Type} (m : Async A) (k : A -> Async B) (fs : FileSystem)
    (calls : list FsCall) (a : A) :
  m fs = (calls, inr a) -> await m k fs = (calls ++ (k a fs).1, (k a fs).2).
Proof. intros H. unfold await. now rewrite H. Qed.

(** The loop stops at the first selected file whose read rejects: it
    rejects with the error of that read and reads no further file. *)
Lemma appendSections_rejects (cwd : string) (before : list string) (g : string)
    (after : list string) (fs : FileSystem) (e : FsError) :
  (forall h, In h before -> exists text, onReadFile fs (Path.join cwd h) = inr text) ->
  onReadFile fs (Path.join cwd g) = inl e ->
  forall content,
    appendSections cwd (before ++ g :: after) content fs
    = (readsOf cwd (before ++ [g]), inl e).
Proof.
  intros Hbefore Hg. induction before as [|h before IH]; intros content.
  - simpl. apply await_rejected. unfold readFile. now rewrite Hg.
  - destruct (Hbefore h (or_introl eq_refl)) as [text Htext].
    cbn [app appendSections].
    rewrite (await_resolved _ _ fs [ReadFile (Path.join cwd h)] text)
      by (unfold readFile; now rewrite Htext).
    rewrite IH by (intros h' Hh'; apply Hbefore; now right).
    reflexivity.
Qed.

(** The first selected file whose read rejects. *)
Lemma first_unreadable (cwd : string) (fs : FileSystem) (selected : list string)
    (f : string) (e0 : FsError) :
  In f selected ->
  onReadFile fs (Path.join cwd f) = inl e0 ->
  exists before g after e,
    selected = before ++ g :: after
    /\ (forall h, In h before -> exists text, onReadFile fs (Path.join cwd h) = inr text)
    /\ onReadFile fs (Path.join cwd g) = inl e.
Proof.
  induction selected as [|a selected IH]; intros Hin Hf; [destruct Hin|].
  destruct (onReadFile fs (Path.join cwd a)) as [e|text] eqn:Ha.
  - exists [], a, selected, e. split; [reflexivity|]. split; [intros h []|exact Ha].
  - destruct Hin as [->|Hin]; [congruence|].
    destruct (IH Hin Hf) as (before & g & after & e & -> & Hbefore & Hg).
    exists (a :: before), g, after, e. split; [reflexivity|]. split; [|exact Hg].
    intros h [<-|Hh]; [eauto|now apply Hbefore].
Qed.

Lemma no_write_among_reads (cwd : string) (selected : list string) (p text : string) :
  ~ In (WriteFile p text) (readsOf cwd selected).
Proof. unfold readsOf. rewrite in_map_iff. intros [f [Hf _]]. discriminate Hf. Qed.

(** The whole run when the directory is ensured and a read rejects. *)
Lemma writeDocument_rejects (cwd : string) (before : list string) (g : string)
    (after : list string) (userPrompt : string) (fs : FileSystem) (e : FsError) :
  onEnsureDir fs (Path.join cwd "wpr") = None ->
  (forall h, In h before -> exists text, onReadFile fs (Path.join cwd h) = inr text) ->
  onReadFile fs (Path.join cwd g) = inl e ->
  writeDocument cwd (before ++ g :: after) userPrompt fs
  = (EnsureDir (Path.join cwd "wpr") :: readsOf cwd (before ++ [g]), inl e).
Proof.
  intros Hdir Hbefore Hg. unfold writeDocument.
  rewrite (await_resolved _ _ fs [EnsureDir (Path.join cwd "wpr")] tt)
    by (unfold ensureDir; now rewrite Hdir).
  rewrite (await_rejected _ _ fs (readsOf cwd (before ++ [g])) e)
    by now apply appendSections_rejects.
  reflexivity.
Qed.

(** C9, amended. Assembly atomicity on a failed read: when the [wpr]
    directory has been ensured and the read of a selected file
    rejects, the run rejects with the error of the first such read,
    passed on as it was raised; it has read the files up to that one
    and never calls [writeFile], so no document is written, in part or
    in whole. *)
Theorem assembly_all_or_nothing (cwd : string) (fs : FileSystem)
    (selected : list string) (userPrompt f : string) (e0 : FsError) :
  onEnsureDir fs (Path.join cwd "wpr") = None ->
  In f selected ->
  onReadFile fs (Path.join cwd f) = inl e0 ->
  exists before g after e,
    selected = before ++ g :: after
    /\ (forall h, In h before -> exists text, onReadFile fs (Path.join cwd h) = inr text)
    /\ onReadFile fs (Path.join cwd g) = inl e
    /\ (writeDocument cwd selected userPrompt fs).2 = inl e
    /\ (writeDocument cwd selected userPrompt fs).1
       = EnsureDir (Path.join cwd "wpr") :: readsOf cwd (before ++ [g])
    /\ (forall p text,
          ~ In (WriteFile p text) (writeDocument cwd selected userPrompt fs).1).
Proof.
  intros Hdir Hin Hf.
  destruct (first_unreadable cwd fs selected f e0 Hin Hf)
    as (before & g & after & e & -> & Hbefore & Hg).
  exists before, g, after, e. split; [reflexivity|]. split; [exact Hbefore|].
  split; [exact Hg|].
  rewrite (writeDocument_rejects cwd before g after userPrompt fs e Hdir Hbefore Hg).
  split; [reflexivity|]. split; [reflexivity|].
  intros p text [Hp|Hp]; [discriminate Hp|].
  now apply no_write_among_reads in Hp.
Qed.

Lemma assembly_all_or_nothing_witness :
  onEnsureDir exampleFiles (Path.join "/proj" "wpr") = None
  /\ In "gone.txt" ["a.txt"; "gone.txt"; "b.txt"]
  /\ onReadFile exampleFiles (Path.join "/proj" "gone.txt")
     = inl (noSuchFile "/proj/gone.txt")
  /\ exists before g after e,
      ["a.txt"; "gone.txt"; "b.txt"] = before ++ g :: after
      /\ (forall h, In h before ->
                    exists text, onReadFile exampleFiles (Path.join "/proj" h) = inr text)
      /\ onReadFile exampleFiles (Path.join "/proj" g) = inl e
      /\ (writeDocument "/proj" ["a.txt"; "gone.txt"; "b.txt"] "Test Run" exampleFiles).2
         = inl e
      /\ (writeDocument "/proj" ["a.txt"; "gone.txt"; "b.txt"] "Test Run" exampleFiles).1
         = EnsureDir (Path.join "/proj" "wpr") :: readsOf "/proj" (before ++ [g])
      /\ (forall p text,
            ~ In (WriteFile p text)
                (writeDocument "/proj" ["a.txt"; "gone.txt"; "b.txt"] "Test Run"
                   exampleFiles).1).
Proof.
  assert (H1 : onEnsureDir exampleFiles (Path.join "/proj" "wpr") = None) by reflexivity.
  assert (H2 : In "gone.txt" ["a.txt"; "gone.txt"; "b.txt"]) by (simpl; auto).
  assert (H3 : onReadFile exampleFiles (Path.join "/proj" "gone.txt")
               = inl (noSuchFile "/proj/gone.txt")) by reflexivity.
  split; [exact H1|]. split; [exact H2|]. split; [exact H3|].
  exact (assembly_all_or_nothing "/proj" exampleFiles ["a.txt"; "gone.txt"; "b.txt"]
           "Test Run" "gone.txt" _ H1 H2 H3).
Defined.

(** C9 as stated fails where Node's error has no path: the read of
    [docs], a link to a directory, rejects with such an error, and the
    run rejects with that error, which does not name the file. *)
Lemma read_error_without_path :
  In "docs" ["docs"]
  /\ onReadFile exampleFiles (Path.join "/proj" "docs")
     = inl {| errorCode := "EISDIR"; errorPath := None |}
  /\ (writeDocument "/proj" ["docs"] "Test Run" exampleFiles).2
     = inl {| errorCode := "EISDIR"; errorPath := None |}
  /\ (forall e, (writeDocument "/proj" ["docs"] "Test Run" exampleFiles).2 = inl e ->
                errorPath e <> Some (Path.join "/proj" "docs")).
Proof.
  split; [now left|]. split; [reflexivity|]. split; [reflexivity|].
  intros e He. vm_compute in He. injection He as <-. discriminate.
Qed.

(** The run of the specification: [a.txt] selected, the prompt
    ["Test Run"]; the document is written to [wpr/test-run.md]. *)
Example end_to_end :
  writeDocument "/proj" ["a.txt"] "Test Run" exampleFiles
  = ([EnsureDir "/proj/wpr"; ReadFile "/proj/a.txt";
      WriteFile "/proj/wpr/test-run.md"
        (promptSection "Test Run" +:+ fileSection "a.txt" "alpha")],
     inr "/proj/wpr/test-run.md").
Proof. reflexivity. Qed.

End AssemblyFacts.

(** ** More on the directory scan *)
Module ScanMore.
Import Js JsFacts Path PathFacts Spec ScanFacts.

Lemma forOf_app {A S : Type} (body : S -> A -> option S) (xs ys : list A) (s : S) :
  forOf body (xs ++ ys) s
  = match forOf body xs s with
    | None => None
    | Some s' => forOf body ys s'
    end.
Proof.
  revert s; induction xs as [|x xs IH]; intros s; [reflexivity|].
  simpl. destruct (body s x); [apply IH|reflexivity].
Qed.

(** X2. A directory whose relative path holds a blacklist entry is not
    read: what the scan returns, or that it fails, does not depend on
    the listing of that directory, nor on whether it can be listed. *)
Theorem blacklisted_directory_not_read (cwd dirPath : string) (config : Config)
    (relativeBase n : string) (listing listing' : option (list Dirent))
    (before after : list Dirent) :
  existsb (fun b => includes (relative cwd relativeBase (join dirPath n)) b)
    (blacklist config) = true ->
  getAllFiles cwd dirPath config relativeBase (Some (before ++ Dir n listing :: after))
  = getAllFiles cwd dirPath config relativeBase (Some (before ++ Dir n listing' :: after)).
Proof.
  intros Hbl. unfold getAllFiles. rewrite !forOf_app.
  destruct (forOf _ before []) as [files|]; [|reflexivity].
  rewrite !forOf_cons. cbn [scanEntry entryName]. now rewrite Hbl.
Qed.

Lemma blacklisted_directory_not_read_witness :
  existsb (fun b => includes (relative "/proj" "/proj" (join "/proj" "node_modules")) b)
    (blacklist defaultConfig) = true
  /\ getAllFiles "/proj" "/proj" defaultConfig "/proj" (Some prunedTree)
     = getAllFiles "/proj" "/proj" defaultConfig "/proj"
         (Some ([File "a.txt"] ++ Dir "node_modules" (Some [File "index.js"])
                  :: [Dir "src" (Some [File "b.js"])])).
Proof.
  assert (H : existsb (fun b => includes (relative "/proj" "/proj"
                                           (join "/proj" "node_modules")) b)
                (blacklist defaultConfig) = true) by reflexivity.
  split; [exact H|].
  exact (blacklisted_directory_not_read "/proj" "/proj" defaultConfig "/proj"
           "node_modules" None (Some [File "index.js"]) [File "a.txt"]
           [Dir "src" (Some [File "b.js"])] H).
Defined.

(** Whenever the scan of a tree of names returns, it returns the
    expected paths. *)
Lemma candidates_of_scan (cwd : string) (config : Config) (entries : list Dirent)
    (allFiles : list string) :
  isAbsolute cwd = true ->
  forallb wellFormed entries = true ->
  getAllFiles cwd cwd config cwd (Some entries) = Some allFiles ->
  allFiles = expectedFiles cwd config (flat_map (filesUnder []) entries)
  /\ candidatePaths cwd allFiles
     = map joinSegs (List.filter (eligibleFile config) (flat_map (filesUnder []) entries)).
Proof.
  intros Hcwd Hwf Hscan.
  pose proof (getAllFiles_exact cwd cwd config Hcwd entries Hwf) as H.
  rewrite Hscan in H. split; [exact H|]. subst allFiles.
  unfold candidatePaths.
  rewrite (expectedFiles_relative cwd cwd config Hcwd)
    by (intros segs; now apply found_names).
  now rewrite filter_map_comm.
Qed.

Lemma distinctStrings_NoDup (l : list string) :
  distinctStrings l = true -> List.NoDup l.
Proof.
  induction l as [|x l IH]; simpl; [constructor|].
  rewrite andb_true_iff, negb_true_iff. intros [Hx Hl].
  constructor; [|now apply IH].
  now apply SessionFacts.arrayIncludes_not_In.
Qed.

Lemma flat_map_filesUnder_NoDup (parents : list string) (entries : list Dirent) :
  Forall (fun entry => distinctNames entry = true ->
            forall parents, List.NoDup (filesUnder parents entry)) entries ->
  distinctStrings (map entryName entries) = true ->
  forallb distinctNames entries = true ->
  List.NoDup (flat_map (filesUnder parents) entries).
Proof.
  induction 1 as [|e es He _ IHes]; simpl; [constructor|].
  rewrite !andb_true_iff, negb_true_iff. intros [Hname Hnames] [Hde Hdes].
  apply List.NoDup_app; [now apply He|now apply IHes|].
  intros segs Hin Hin'.
  apply filesUnder_extends in Hin as [more ->].
  apply in_flat_map in Hin' as [e' [He' Hin']].
  apply filesUnder_extends in Hin' as [more' Heq].
  apply app_inv_head in Heq. injection Heq as Heq _.
  apply SessionFacts.arrayIncludes_not_In in Hname. apply Hname.
  rewrite Heq. now apply in_map.
Qed.

Lemma filesUnder_NoDup (entry : Dirent) :
  distinctNames entry = true -> forall parents, List.NoDup (filesUnder parents entry).
Proof.
  induction entry as [n|n|n entries IH] using Dirent_ind; intros Hd parents; simpl.
  - repeat constructor. intros [].
  - constructor.
  - simpl in Hd. apply andb_true_iff in Hd as [Hnames Hd].
    now apply flat_map_filesUnder_NoDup.
Qed.

(** Lists of names with the same joined path are the same list. *)
Lemma joinSegs_inj (l1 l2 : list string) :
  Forall (fun n => simpleName n = true) l1 -> l1 <> [] ->
  Forall (fun n => simpleName n = true) l2 -> l2 <> [] ->
  joinSegs l1 = joinSegs l2 -> l1 = l2.
Proof.
  intros H1 N1 H2 N2 E.
  rewrite <- (split_joinSegs l1), <- (split_joinSegs l2), E
    by auto using names_noSlash.
  reflexivity.
Qed.

(** X3. When the names in every directory are pairwise different, the
    paths the scan returns are pairwise different, and so are the
    candidate paths made of them: a candidate path names one file. *)
Theorem candidate_paths_distinct (cwd : string) (config : Config)
    (entries : list Dirent) (allFiles : list string) :
  isAbsolute cwd = true ->
  forallb wellFormed entries = true ->
  distinctStrings (map entryName entries) = true ->
  forallb distinctNames entries = true ->
  getAllFiles cwd cwd config cwd (Some entries) = Some allFiles ->
  List.NoDup allFiles /\ List.NoDup (candidatePaths cwd allFiles).
Proof.
  intros Hcwd Hwf Hnames Hdist Hscan.
  destruct (candidates_of_scan cwd config entries allFiles Hcwd Hwf Hscan) as [_ Hcand].
  assert (Hnodup : List.NoDup (candidatePaths cwd allFiles)).
  { rewrite Hcand. apply NoDup_map_NoDup_ForallPairs.
    - intros a b Ha Hb. apply filter_In in Ha as [Ha _]. apply filter_In in Hb as [Hb _].
      destruct (found_names entries a Hwf Ha), (found_names entries b Hwf Hb).
      now apply joinSegs_inj.
    - apply List.NoDup_filter. apply flat_map_filesUnder_NoDup; [|assumption..].
      apply List.Forall_forall. intros e _. apply filesUnder_NoDup. }
  split; [|exact Hnodup]. now apply NoDup_map_inv in Hnodup.
Qed.

Lemma candidate_paths_distinct_witness :
  isAbsolute "/proj" = true
  /\ forallb wellFormed exampleTree = true
  /\ distinctStrings (map entryName exampleTree) = true
  /\ forallb distinctNames exampleTree = true
  /\ getAllFiles "/proj" "/proj" defaultConfig "/proj" (Some exampleTree)
     = Some ["/proj/b.txt"; "/proj/src/z.js"; "/proj/src/lib/x.js"; "/proj/src/a.js";
             "/proj/a.txt"]
  /\ List.NoDup ["/proj/b.txt"; "/proj/src/z.js"; "/proj/src/lib/x.js"; "/proj/src/a.js";
                 "/proj/a.txt"]
  /\ List.NoDup
       (candidatePaths "/proj"
          ["/proj/b.txt"; "/proj/src/z.js"; "/proj/src/lib/x.js"; "/proj/src/a.js";
           "/proj/a.txt"]).
Proof.
  assert (H1 : isAbsolute "/proj" = true) by reflexivity.
  assert (H2 : forallb wellFormed exampleTree = true) by reflexivity.
  assert (H3 : distinctStrings (map entryName exampleTree) = true) by reflexivity.
  assert (H4 : forallb distinctNames exampleTree = true) by reflexivity.
  assert (H5 : getAllFiles "/proj" "/proj" defaultConfig "/proj" (Some exampleTree)
               = Some ["/proj/b.txt"; "/proj/src/z.js"; "/proj/src/lib/x.js";
                       "/proj/src/a.js"; "/proj/a.txt"]) by reflexivity.
  split; [exact H1|]. split; [exact H2|]. split; [exact H3|]. split; [exact H4|].
  split; [exact H5|].
  exact (candidate_paths_distinct "/proj" defaultConfig exampleTree _ H1 H2 H3 H4 H5).
Defined.

(** X4. Joined to the working directory again, as [main] does before it
    reads a selected file, the candidate paths are the paths the scan
    returned, one by one: the file read is the file found. *)
Theorem candidates_join_back (cwd : string) (config : Config)
    (entries : list Dirent) (allFiles : list string) :
  isAbsolute cwd = true ->
  forallb wellFormed entries = true ->
  getAllFiles cwd cwd config cwd (Some entries) = Some allFiles ->
  map (join cwd) (candidatePaths cwd allFiles) = allFiles.
Proof.
  intros Hcwd Hwf Hscan.
  destruct (candidates_of_scan cwd config entries allFiles Hcwd Hwf Hscan)
    as [Hfull Hcand].
  rewrite Hcand, Hfull. unfold expectedFiles. rewrite map_map.
  apply map_ext_in. intros segs Hsegs. apply filter_In in Hsegs as [Hsegs _].
  destruct (found_names entries segs Hwf Hsegs) as [Hnames Hne].
  symmetry. now apply (underRoot_join cwd).
Qed.

Lemma candidates_join_back_witness :
  isAbsolute "/proj" = true
  /\ forallb wellFormed whitelistTree = true
  /\ getAllFiles "/proj" "/proj" defaultConfig "/proj" (Some whitelistTree)
     = Some ["/proj/src/app.js"; "/proj/src/util.js"; "/proj/lib/app.js"]
  /\ map (join "/proj")
       (candidatePaths "/proj" ["/proj/src/app.js"; "/proj/src/util.js"; "/proj/lib/app.js"])
     = ["/proj/src/app.js"; "/proj/src/util.js"; "/proj/lib/app.js"].
Proof.
  assert (H1 : isAbsolute "/proj" = true) by reflexivity.
  assert (H2 : forallb wellFormed whitelistTree = true) by reflexivity.
  assert (H3 : getAllFiles "/proj" "/proj" defaultConfig "/proj" (Some whitelistTree)
               = Some ["/proj/src/app.js"; "/proj/src/util.js"; "/proj/lib/app.js"])
    by reflexivity.
  split; [exact H1|]. split; [exact H2|]. split; [exact H3|].
  exact (candidates_join_back "/proj" defaultConfig whitelistTree _ H1 H2 H3).
Defined.

Lemma filter_twice {A : Type} (f g : A -> bool) (l : list A) :
  List.filter f (List.filter g l) = List.filter (fun x => f x && g x) l.
Proof.
  induction l as [|x l IH]; [reflexivity|]. simpl.
  destruct (g x); simpl; [destruct (f x)|rewrite andb_false_r]; now rewrite IH.
Qed.

(** X7. One more blacklist entry only removes candidates: what is left
    are the candidates of before in which the new entry does not
    occur, in the order they had. *)
Theorem blacklist_entry_only_removes (cwd : string) (config : Config)
    (entries : list Dirent) (b : string) (allFiles allFiles' : list string) :
  isAbsolute cwd = true ->
  forallb wellFormed entries = true ->
  getAllFiles cwd cwd config cwd (Some entries) = Some allFiles ->
  getAllFiles cwd cwd
    {| whitelist := whitelist config; blacklist := b :: blacklist config |} cwd
    (Some entries) = Some allFiles' ->
  candidatePaths cwd allFiles'
  = List.filter (fun p => negb (includes p b)) (candidatePaths cwd allFiles).
Proof.
  intros Hcwd Hwf Hscan Hscan'.
  destruct (candidates_of_scan cwd config entries allFiles Hcwd Hwf Hscan) as [_ ->].
  destruct (candidates_of_scan cwd _ entries allFiles' Hcwd Hwf Hscan') as [_ ->].
  rewrite filter_map_comm, filter_twice. f_equal.
  apply filter_ext. intros segs. unfold eligibleFile, eligible. simpl.
  rewrite negb_orb. now rewrite andb_assoc.
Qed.

Lemma blacklist_entry_only_removes_witness :
  isAbsolute "/proj" = true
  /\ forallb wellFormed exampleTree = true
  /\ getAllFiles "/proj" "/proj" defaultConfig "/proj" (Some exampleTree)
     = Some ["/proj/b.txt"; "/proj/src/z.js"; "/proj/src/lib/x.js"; "/proj/src/a.js";
             "/proj/a.txt"]
  /\ getAllFiles "/proj" "/proj"
       {| whitelist := whitelist defaultConfig; blacklist := "lib" :: blacklist defaultConfig |}
       "/proj" (Some exampleTree)
     = Some ["/proj/b.txt"; "/proj/src/z.js"; "/proj/src/a.js"; "/proj/a.txt"]
  /\ candidatePaths "/proj"
       ["/proj/b.txt"; "/proj/src/z.js"; "/proj/src/a.js"; "/proj/a.txt"]
     = List.filter (fun p => negb (includes p "lib"))
         (candidatePaths "/proj"
            ["/proj/b.txt"; "/proj/src/z.js"; "/proj/src/lib/x.js"; "/proj/src/a.js";
             "/proj/a.txt"]).
Proof.
  assert (H1 : isAbsolute "/proj" = true) by reflexivity.
  assert (H2 : forallb wellFormed exampleTree = true) by reflexivity.
  assert (H3 : getAllFiles "/proj" "/proj" defaultConfig "/proj" (Some exampleTree)
               = Some ["/proj/b.txt"; "/proj/src/z.js"; "/proj/src/lib/x.js";
                       "/proj/src/a.js"; "/proj/a.txt"]) by reflexivity.
  assert (H4 : getAllFiles "/proj" "/proj"
                 {| whitelist := whitelist defaultConfig;
                    blacklist := "lib" :: blacklist defaultConfig |}
                 "/proj" (Some exampleTree)
               = Some ["/proj/b.txt"; "/proj/src/z.js"; "/proj/src/a.js"; "/proj/a.txt"])
    by reflexivity.
  split; [exact H1|]. split; [exact H2|]. split; [exact H3|]. split; [exact H4|].
  exact (blacklist_entry_only_removes "/proj" defaultConfig exampleTree "lib" _ _
           H1 H2 H3 H4).
Defined.

(** A path the scan returned, made relative and joined again, is that
    path. *)
Lemma scanned_path_round_trip (cwd : string) (config : Config)
    (entries : list Dirent) (allFiles : list string) (g : string) :
  isAbsolute cwd = true ->
  forallb wellFormed entries = true ->
  getAllFiles cwd cwd config cwd (Some entries) = Some allFiles ->
  In g allFiles ->
  join cwd (relative cwd cwd g) = g.
Proof.
  intros Hcwd Hwf Hscan Hg.
  destruct (candidates_of_scan cwd config entries allFiles Hcwd Hwf Hscan) as [-> _].
  unfold expectedFiles in Hg. apply in_map_iff in Hg as [segs [<- Hsegs]].
  apply filter_In in Hsegs as [Hsegs _].
  destruct (found_names entries segs Hwf Hsegs) as [Hnames Hne].
  rewrite relative_underRoot by assumption.
  symmetry. now apply (underRoot_join cwd).
Qed.

End ScanMore.

(** ** More on the output file name *)
Module FilenameMore.
Import Js JsFacts Path PathFacts Spec FilenameFacts.

Lemma allChars_app (P : ascii -> bool) (s t : string) :
  allChars P (s +:+ t) = allChars P s && allChars P t.
Proof.
  induction s as [|c s IH]; [reflexivity|].
  rewrite sapp_cons. simpl. now rewrite IH, andb_assoc.
Qed.

Lemma allChars_impl (P Q : ascii -> bool) (s : string) :
  (forall c, P c = true -> Q c = true) -> allChars P s = true -> allChars Q s = true.
Proof.
  intros HPQ. induction s as [|c s IH]; [reflexivity|]. simpl.
  rewrite !andb_true_iff. intros [Hc Hs]. auto.
Qed.

(** An occurrence in a part of a string is an occurrence in the string. *)
Lemma includes_part (s pre t post x : string) :
  s = pre +:+ t +:+ post -> includes t x = true -> includes s x = true.
Proof.
  intros -> [p1 [p2 ->]]%includes_spec. apply includes_spec.
  exists (pre +:+ p1), (p2 +:+ post). now rewrite !sapp_assoc.
Qed.

Lemma takeChars_prefix (n : nat) (s : string) : exists rest, s = takeChars n s +:+ rest.
Proof.
  revert n; induction s as [|c s IH]; intros [|n]; simpl; eauto.
  destruct (IH n) as [rest Hrest]. exists rest. now rewrite sapp_cons, <- Hrest.
Qed.

Lemma removeEdgeDashes_prefix (s : string) :
  exists post, s = removeEdgeDashes false s +:+ post.
Proof.
  induction s as [|c s [post IH]]; [now exists ""|]. simpl.
  destruct (isDash c), (allChars isDash s);
    solve [ now exists (String c s)
          | exists post; now rewrite sapp_cons, <- IH ].
Qed.

(** What the second regular expression leaves is a part of the string. *)
Lemma removeEdgeDashes_part (s : string) :
  exists pre post, s = pre +:+ removeEdgeDashes true s +:+ post.
Proof.
  induction s as [|c s (pre & post & IH)]; [now exists "", ""|]. simpl.
  destruct (isDash c).
  - exists (String c pre), post. now rewrite sapp_cons, <- IH.
  - destruct (removeEdgeDashes_prefix s) as [post' Hpost].
    exists "", post'. now rewrite sapp_nil_l, sapp_cons, <- Hpost.
Qed.

Lemma alnum_not_dash (c : ascii) : isAlnum c = true -> isDash c = false.
Proof.
  intros Hc. unfold isDash. destruct (Ascii.eqb_spec c "-") as [->|]; [|reflexivity].
  discriminate Hc.
Qed.

Lemma replaceNonAlnum_chars (b : bool) (s : string) :
  allChars isNameChar (replaceNonAlnum b s) = true.
Proof.
  revert b; induction s as [|c s IH]; intros b; [reflexivity|]. simpl.
  destruct (isAlnum c) eqn:Hc.
  - simpl. unfold isNameChar at 1. now rewrite Hc, IH.
  - destruct b; [apply IH|]. simpl. apply IH.
Qed.

Lemma includes_dashes_cons (a : ascii) (t : string) :
  includes (String a t) "--"
  = (Ascii.eqb "-" a && startsWith t "-") || includes t "--".
Proof. reflexivity. Qed.

Lemma startsWith_dash_cons (a : ascii) (t : string) :
  startsWith (String a t) "-" = Ascii.eqb "-" a.
Proof. simpl. apply andb_true_r. Qed.

(** After the first replacement no dash follows a dash. *)
Lemma replaceNonAlnum_single_dashes (s : string) :
  includes (replaceNonAlnum false s) "--" = false
  /\ includes (String "-" (replaceNonAlnum true s)) "--" = false.
Proof.
  induction s as [|c s [IHf IHt]]; [split; reflexivity|].
  cbn [replaceNonAlnum]. destruct (isAlnum c) eqn:Hc; [|now split].
  apply alnum_not_dash in Hc. unfold isDash in Hc. rewrite Ascii.eqb_sym in Hc.
  assert (H : includes (String c (replaceNonAlnum false s)) "--" = false)
    by now rewrite includes_dashes_cons, Hc, IHf.
  split; [exact H|].
  now rewrite includes_dashes_cons, startsWith_dash_cons, Hc, H.
Qed.

Lemma removeEdgeDashes_start (s : string) :
  startsWith (removeEdgeDashes true s) "-" = false.
Proof.
  induction s as [|c s IH]; [reflexivity|]. cbn [removeEdgeDashes].
  destruct (isDash c) eqn:Hc; [exact IH|].
  unfold isDash in Hc. rewrite Ascii.eqb_sym in Hc.
  now rewrite startsWith_dash_cons.
Qed.

Lemma takeChars_start (n : nat) (s w : string) :
  startsWith s w = false -> startsWith (takeChars n s) w = false.
Proof.
  intros Hs. destruct (startsWith (takeChars n s) w) eqn:E; [|reflexivity].
  apply startsWith_spec in E as [t Ht].
  destruct (takeChars_prefix n s) as [rest Hrest].
  rewrite Ht, sapp_assoc in Hrest.
  assert (H : startsWith s w = true) by (apply startsWith_spec; eauto).
  congruence.
Qed.

Lemma baseName_chars (prompt : string) :
  allChars isNameChar (baseName prompt) = true
  /\ startsWith (baseName prompt) "-" = false
  /\ includes (baseName prompt) "--" = false.
Proof.
  unfold baseName. set (dashed := replaceNonAlnum false (toLowerCase prompt)).
  destruct (removeEdgeDashes_part dashed) as (pre & post & Hpart).
  split; [|split].
  - pose proof (replaceNonAlnum_chars false (toLowerCase prompt)) as H.
    fold dashed in H. rewrite Hpart, !allChars_app, !andb_true_iff in H. tauto.
  - apply removeEdgeDashes_start.
  - destruct (includes (removeEdgeDashes true dashed) "--") eqn:E; [|reflexivity].
    apply (includes_part dashed pre _ post _ Hpart) in E.
    unfold dashed in E.
    now rewrite (proj1 (replaceNonAlnum_single_dashes _)) in E.
Qed.

(** The name is the fallback or the start of [base]. *)
Lemma filename_cases (prompt : string) :
  (baseName prompt = "" /\ generateFilenameFromPrompt prompt = "prompt")
  \/ (baseName prompt <> "" /\
      generateFilenameFromPrompt prompt = takeChars 50 (baseName prompt)).
Proof.
  unfold generateFilenameFromPrompt. cbv zeta. rewrite slice0_takeChars.
  assert (Hcut : (if 50 <? String.length (baseName prompt)
                  then takeChars 50 (baseName prompt) else baseName prompt)
                 = takeChars 50 (baseName prompt)).
  { destruct (Nat.ltb_spec 50 (String.length (baseName prompt))); [reflexivity|].
    now rewrite takeChars_all. }
  rewrite Hcut. destruct (baseName prompt) as [|c base]; [now left|].
  right. split; [discriminate|reflexivity].
Qed.

Lemma filename_chars (prompt : string) :
  allChars isNameChar (generateFilenameFromPrompt prompt) = true
  /\ startsWith (generateFilenameFromPrompt prompt) "-" = false
  /\ includes (generateFilenameFromPrompt prompt) "--" = false.
Proof.
  destruct (baseName_chars prompt) as (Hchars & Hstart & Hdashes).
  destruct (filename_cases prompt) as [[_ ->]|[_ ->]]; [repeat split|].
  destruct (takeChars_prefix 50 (baseName prompt)) as [rest Hrest].
  split; [|split].
  - rewrite Hrest, allChars_app, andb_true_iff in Hchars. tauto.
  - now apply takeChars_start.
  - destruct (includes (takeChars 50 (baseName prompt)) "--") eqn:E; [|reflexivity].
    apply (includes_part (baseName prompt) "" _ rest) in E; [congruence|exact Hrest].
Qed.

(** X5. The file name is safe, as the source says of it: it is not
    empty, it is made of the characters [[a-z0-9]] and the dash only,
    it does not start with a dash, and no dash follows a dash in it. *)
Theorem filename_is_safe (prompt : string) :
  generateFilenameFromPrompt prompt <> ""
  /\ allChars isNameChar (generateFilenameFromPrompt prompt) = true
  /\ startsWith (generateFilenameFromPrompt prompt) "-" = false
  /\ includes (generateFilenameFromPrompt prompt) "--" = false.
Proof.
  split; [|apply filename_chars].
  destruct (filename_cases prompt) as [[_ ->]|[Hbase ->]]; [discriminate|].
  now destruct (baseName prompt).
Qed.

Lemma replaceNonAlnum_all_dashes (b : bool) (s : string) :
  allChars isDash (replaceNonAlnum b s) = allChars (fun c => negb (isAlnum c)) s.
Proof.
  revert b; induction s as [|c s IH]; intros b; [reflexivity|]. simpl.
  destruct (isAlnum c) eqn:Hc; simpl.
  - now rewrite (alnum_not_dash c Hc).
  - destruct b; simpl; apply IH.
Qed.

Lemma allChars_dropLeadingDashes (s : string) :
  allChars isDash (dropLeadingDashes s) = allChars isDash s.
Proof.
  induction s as [|c s IH]; [reflexivity|]. simpl.
  destruct (isDash c) eqn:Hc; [exact IH|]. simpl. now rewrite Hc.
Qed.

Lemma allChars_mapChars (P : ascii -> bool) (f : ascii -> ascii) (s : string) :
  allChars P (mapChars f s) = allChars (fun c => P (f c)) s.
Proof. induction s as [|c s IH]; [reflexivity|]. simpl. now rewrite IH. Qed.

(** Nothing is left of a prompt exactly when it has no letter and no
    digit. *)
Lemma baseName_empty (prompt : string) :
  baseName prompt = "" <-> allChars (fun c => negb (isLetterOrDigit c)) prompt = true.
Proof.
  unfold baseName. rewrite removeEdgeDashes_strip, dropTrailingDashes_empty,
    allChars_dropLeadingDashes, replaceNonAlnum_all_dashes.
  unfold toLowerCase. now rewrite allChars_mapChars.
Qed.

(** X6. A prompt without a letter or a digit, the empty prompt among
    them, gets the name ["prompt"]; every other prompt gets a name that
    starts with a character of [[a-z0-9]]. *)
Theorem filename_fallback (prompt : string) :
  (allChars (fun c => negb (isLetterOrDigit c)) prompt = true ->
   generateFilenameFromPrompt prompt = "prompt")
  /\ (allChars (fun c => negb (isLetterOrDigit c)) prompt = false ->
      exists c rest,
        generateFilenameFromPrompt prompt = String c rest /\ isAlnum c = true).
Proof.
  pose proof (baseName_empty prompt) as Hempty.
  destruct (filename_cases prompt) as [[Hbase Hname]|[Hbase Hname]]; split; intros Hp.
  - exact Hname.
  - apply Hempty in Hbase. congruence.
  - now apply Hempty in Hp.
  - destruct (baseName_chars prompt) as (Hchars & Hstart & _).
    rewrite Hname. destruct (baseName prompt) as [|c base]; [contradiction|].
    exists c, (takeChars 49 base). split; [reflexivity|].
    cbn [allChars] in Hchars. apply andb_true_iff in Hchars as [Hc _].
    rewrite startsWith_dash_cons in Hstart.
    unfold isNameChar, isDash in Hc. rewrite Ascii.eqb_sym in Hc.
    now rewrite Hstart, orb_false_r in Hc.
Qed.

Lemma filename_component (prompt : string) :
  simpleName (generateFilenameFromPrompt prompt +:+ ".md") = true.
Proof.
  destruct (filename_chars prompt) as (Hchars & _ & _).
  assert (Hne : generateFilenameFromPrompt prompt <> "").
  { destruct (filename_cases prompt) as [[_ ->]|[Hbase ->]]; [discriminate|].
    now destruct (baseName prompt). }
  destruct (generateFilenameFromPrompt prompt) as [|c rest] eqn:Hname; [contradiction|].
  assert (Hc : isNameChar c = true) by (simpl in Hchars; now apply andb_true_iff in Hchars).
  unfold simpleName. rewrite sapp_cons.
  assert (Hdot : Ascii.eqb c "." = false).
  { destruct (Ascii.eqb_spec c ".") as [->|]; [discriminate Hc|reflexivity]. }
  replace (String.eqb (String c (rest +:+ ".md")) "") with false by reflexivity.
  replace (String.eqb (String c (rest +:+ ".md")) ".") with false
    by (simpl; now rewrite Hdot).
  replace (String.eqb (String c (rest +:+ ".md")) "..") with false
    by (simpl; now rewrite Hdot).
  simpl. rewrite <- sapp_cons. unfold noSlash.
  rewrite allChars_app, andb_true_iff. split; [|reflexivity].
  apply (allChars_impl isNameChar); [|exact Hchars].
  intros a Ha. destruct (Ascii.eqb_spec a "/") as [->|]; [discriminate Ha|reflexivity].
Qed.

(** X8. Whatever the prompt, the document is written directly into
    the [wpr] directory of the working directory: relative to the
    working directory, the path written is [wpr/], the file name and
    [.md]; no prompt leads out of that directory. *)
Theorem output_inside_wpr (cwd userPrompt : string) :
  isAbsolute cwd = true ->
  outFileOf cwd userPrompt
  = "/" +:+ joinSegs (resolveSegs cwd cwd
                        ++ ["wpr"; generateFilenameFromPrompt userPrompt +:+ ".md"])
  /\ relative cwd cwd (outFileOf cwd userPrompt)
     = "wpr/" +:+ generateFilenameFromPrompt userPrompt +:+ ".md".
Proof.
  intros Hcwd.
  assert (Hnames : Forall (fun n => simpleName n = true)
                     ["wpr"; generateFilenameFromPrompt userPrompt +:+ ".md"]).
  { constructor; [reflexivity|]. constructor; [apply filename_component|constructor]. }
  change (outFileOf cwd userPrompt)
    with (underRoot cwd ["wpr"; generateFilenameFromPrompt userPrompt +:+ ".md"]).
  split.
  - now apply underRoot_names.
  - now rewrite relative_underRoot.
Qed.

Lemma output_inside_wpr_witness :
  isAbsolute "/proj" = true
  /\ generateFilenameFromPrompt "../../etc/passwd" = "etc-passwd"
  /\ outFileOf "/proj" "../../etc/passwd"
     = "/" +:+ joinSegs (resolveSegs "/proj" "/proj"
                           ++ ["wpr"; generateFilenameFromPrompt "../../etc/passwd" +:+ ".md"])
  /\ relative "/proj" "/proj" (outFileOf "/proj" "../../etc/passwd")
     = "wpr/" +:+ generateFilenameFromPrompt "../../etc/passwd" +:+ ".md".
Proof.
  assert (H : isAbsolute "/proj" = true) by reflexivity.
  split; [exact H|]. split; [reflexivity|].
  exact (output_inside_wpr "/proj" "../../etc/passwd" H).
Defined.

End FilenameMore.

(** ** More on the selection loop *)
Module SessionMore.
Import Js JsFacts SessionFacts.

Lemma selectionLoop_finished (answers : list string) (st : LoopState) :
  addingFiles st = false -> selectionLoop answers st = st.
Proof. intros H. destruct answers; [reflexivity|]. simpl. now rewrite H. Qed.

Lemma loopBody_adding (st : LoopState) (file : string) :
  addingFiles (loopBody st file)
  = addingFiles st && negb (String.eqb file "Done").
Proof.
  unfold loopBody. destruct (String.eqb file "Done"); [now rewrite andb_false_r|].
  rewrite andb_true_r. now destruct (_ && _).
Qed.

(** X10. The loop only appends: the files selected before stay
    selected, in their places, whatever is answered afterwards, and
    each answer adds one file at most. *)
Theorem selection_only_grows (answers : list string) (st : LoopState) :
  exists added,
    selectedFiles (selectionLoop answers st) = selectedFiles st ++ added
    /\ length added <= length answers.
Proof.
  revert st; induction answers as [|file answers IH]; intros st.
  - exists []. split; [now rewrite app_nil_r|reflexivity].
  - simpl. destruct (addingFiles st).
    + destruct (IH (loopBody st file)) as [added [-> Hlen]].
      destruct (loopBody_selected st file) as [->|[-> _]].
      * exists added. split; [reflexivity|lia].
      * exists (file :: added). rewrite <- app_assoc. split; [reflexivity|simpl; lia].
    + exists []. split; [now rewrite app_nil_r|simpl; lia].
Qed.

Lemma arrayIncludes_snoc (sel : list string) (a y : string) :
  arrayIncludes (sel ++ [a]) y = arrayIncludes sel y || String.eqb y a.
Proof.
  unfold arrayIncludes. rewrite existsb_app. simpl. now rewrite orb_false_r.
Qed.

Lemma filter_filter (f g : string -> bool) (l : list string) :
  List.filter f (List.filter g l) = List.filter (fun x => g x && f x) l.
Proof.
  induction l as [|x l IH]; [reflexivity|]. simpl.
  destruct (g x); simpl; [destruct (f x)|]; now rewrite IH.
Qed.

(** From a state that is still selecting: the files selected so far,
    then the first occurrences of the new ones. *)
Lemma selectionLoop_firstOccurrences (answers : list string) :
  forall st,
    addingFiles st = true ->
    selectedFiles (selectionLoop answers st)
    = selectedFiles st
      ++ List.filter (fun y => negb (arrayIncludes (selectedFiles st) y))
           (firstOccurrences
              (List.filter (fun a => negb (String.eqb a "")) (beforeDone answers))).
Proof.
  induction answers as [|file answers IH]; intros st Hst.
  - simpl. now rewrite app_nil_r.
  - cbn [selectionLoop beforeDone]. rewrite Hst. unfold loopBody.
    destruct (String.eqb_spec file "Done") as [->|Hdone].
    + rewrite selectionLoop_finished by reflexivity. simpl. now rewrite app_nil_r.
    + cbn [List.filter]. destruct (String.eqb_spec file "") as [->|Hempty]; simpl negb.
      * cbn [andb]. now apply IH.
      * cbn [andb firstOccurrences List.filter].
        destruct (arrayIncludes (selectedFiles st) file) eqn:Hin; cbn [negb].
        -- rewrite (IH st Hst), filter_filter. f_equal.
           apply filter_ext_in. intros y _.
           destruct (String.eqb_spec y file) as [->|]; [now rewrite Hin|reflexivity].
        -- rewrite IH by exact Hst. cbn [selectedFiles].
           rewrite <- app_assoc, filter_filter. f_equal. cbn [app]. f_equal.
           apply filter_ext_in. intros y _. rewrite arrayIncludes_snoc.
           now destruct (String.eqb y file), (arrayIncludes (selectedFiles st) y).
Qed.

Lemma selectionLoop_adding (answers : list string) :
  forall st,
    addingFiles (selectionLoop answers st)
    = addingFiles st && negb (arrayIncludes answers "Done").
Proof.
  induction answers as [|file answers IH]; intros st; [now rewrite andb_true_r|].
  cbn [selectionLoop]. destruct (addingFiles st) eqn:Hst; [|exact Hst].
  rewrite IH, loopBody_adding, Hst. unfold arrayIncludes. cbn [existsb andb].
  now rewrite negb_orb, (String.eqb_sym "Done" file).
Qed.

(** X9. The selection the loop builds: the answers given before the
    first ["Done"], without the empty ones and without repetitions,
    each file where it was answered first; and the loop has ended
    exactly when ["Done"] was answered. *)
Theorem selection_is_first_occurrences (answers : list string) :
  selectedFiles (selectionLoop answers initialState)
  = firstOccurrences
      (List.filter (fun a => negb (String.eqb a "")) (beforeDone answers))
  /\ addingFiles (selectionLoop answers initialState)
     = negb (arrayIncludes answers "Done").
Proof.
  split.
  - rewrite selectionLoop_firstOccurrences by reflexivity. simpl.
    apply forallb_filter_id. now apply forallb_forall.
  - now rewrite selectionLoop_adding.
Qed.

End SessionMore.

(** ** More on the document *)
Module AssemblyMore.
Import AssemblyFacts.

(** When the read of every selected file resolves, the loop resolves
    with the sections appended in the order of the selection. *)
Lemma appendSections_resolves (cwd : string) (fs : FileSystem) (selected : list string) :
  (forall f, In f selected -> exists text, onReadFile fs (Path.join cwd f) = inr text) ->
  forall content,
    appendSections cwd selected content fs
    = (readsOf cwd selected, inr (content +:+ sectionsOf cwd fs selected)).
Proof.
  induction selected as [|f rest IH]; intros Hread content.
  - simpl. unfold resolve. now rewrite JsFacts.sapp_nil_r.
  - destruct (Hread f (or_introl eq_refl)) as [text Htext].
    cbn [appendSections sectionsOf].
    rewrite (await_resolved _ _ fs [ReadFile (Path.join cwd f)] text)
      by (unfold readFile; now rewrite Htext).
    rewrite IH by (intros g Hg; apply Hread; now right).
    rewrite Htext. cbn [fst snd]. now rewrite JsFacts.sapp_assoc.
Qed.

(** Either every read resolves, or there is a first one that rejects. *)
Lemma reads_settle (cwd : string) (fs : FileSystem) (selected : list string) :
  (forall f, In f selected -> exists text, onReadFile fs (Path.join cwd f) = inr text)
  \/ (exists before g after e,
        selected = before ++ g :: after
        /\ (forall h, In h before ->
                      exists text, onReadFile fs (Path.join cwd h) = inr text)
        /\ onReadFile fs (Path.join cwd g) = inl e).
Proof.
  induction selected as [|a selected [IH|IH]].
  - left. intros f [].
  - destruct (onReadFile fs (Path.join cwd a)) as [e|text] eqn:Ha.
    + right. exists [], a, selected, e. split; [reflexivity|]. split; [intros h []|exact Ha].
    + left. intros f [<-|Hf]; eauto.
  - right. destruct (onReadFile fs (Path.join cwd a)) as [e|text] eqn:Ha.
    + exists [], a, selected, e. split; [reflexivity|]. split; [intros h []|exact Ha].
    + destruct IH as (before & g & after & e & -> & Hbefore & Hg).
      exists (a :: before), g, after, e. split; [reflexivity|]. split; [|exact Hg].
      intros h [<-|Hh]; [eauto|now apply Hbefore].
Qed.

(** The run once the directory is ensured and every read has resolved:
    one write, of the document, to the output path. *)
Lemma writeDocument_writes (cwd : string) (fs : FileSystem) (selected : list string)
    (userPrompt : string) :
  onEnsureDir fs (Path.join cwd "wpr") = None ->
  (forall f, In f selected -> exists text, onReadFile fs (Path.join cwd f) = inr text) ->
  writeDocument cwd selected userPrompt fs
  = (EnsureDir (Path.join cwd "wpr") :: readsOf cwd selected
       ++ [WriteFile (outFileOf cwd userPrompt) (documentOf cwd fs selected userPrompt)],
     match onWriteFile fs (outFileOf cwd userPrompt)
             (documentOf cwd fs selected userPrompt) with
     | Some e => inl e
     | None => inr (outFileOf cwd userPrompt)
     end).
Proof.
  intros Hdir Hread. unfold writeDocument.
  rewrite (await_resolved _ _ fs [EnsureDir (Path.join cwd "wpr")] tt)
    by (unfold ensureDir; now rewrite Hdir).
  rewrite (await_resolved _ _ fs (readsOf cwd selected)
             (promptSection userPrompt +:+ sectionsOf cwd fs selected))
    by now apply appendSections_resolves.
  fold (outFileOf cwd userPrompt). fold (documentOf cwd fs selected userPrompt).
  unfold await, writeFile, resolve.
  destruct (onWriteFile fs _ _); simpl; now rewrite ?app_nil_r.
Qed.



(** X12. Whatever the file system answers, what the run writes is the
    document and nothing else: a [writeFile] call of the run is on the
    output path, with the complete document, after [ensureDir] and the
    read of every selected file have resolved, and it is the only
    [writeFile] call and the last call of the run. *)
Theorem run_writes_document_only (cwd : string) (fs : FileSystem)
    (selected : list string) (userPrompt p text : string) :
  In (WriteFile p text) (writeDocument cwd selected userPrompt fs).1 ->
  p = outFileOf cwd userPrompt
  /\ text = promptSection userPrompt +:+ sectionsOf cwd fs selected
  /\ onEnsureDir fs (Path.join cwd "wpr") = None
  /\ (forall f, In f selected ->
                exists t, onReadFile fs (Path.join cwd f) = inr t)
  /\ (writeDocument cwd selected userPrompt fs).1
     = EnsureDir (Path.join cwd "wpr") :: readsOf cwd selected ++ [WriteFile p text].
Proof.
  intros Hin.
  destruct (onEnsureDir fs (Path.join cwd "wpr")) as [e|] eqn:Hdir.
  - unfold writeDocument in Hin.
    rewrite (await_rejected _ _ fs [EnsureDir (Path.join cwd "wpr")] e) in Hin
      by (unfold ensureDir; now rewrite Hdir).
    destruct Hin as [Hin|[]]. discriminate Hin.
  - destruct (reads_settle cwd fs selected)
      as [Hread|(before & g & after & e & -> & Hbefore & Hg)].
    + rewrite (writeDocument_writes cwd fs selected userPrompt Hdir Hread) in Hin |- *.
      cbn [fst] in Hin |- *.
      destruct Hin as [Hin|Hin]; [discriminate Hin|].
      apply in_app_iff in Hin as [Hin|[Hin|[]]];
        [now apply no_write_among_reads in Hin|].
      injection Hin as <- <-. now repeat split.
    + rewrite (writeDocument_rejects cwd before g after userPrompt fs e Hdir Hbefore Hg)
        in Hin.
      destruct Hin as [Hin|Hin]; [discriminate Hin|].
      now apply no_write_among_reads in Hin.
Qed.

Lemma run_writes_document_only_witness :
  In (WriteFile "/proj/wpr/test-run.md"
        (promptSection "Test Run" +:+ fileSection "a.txt" "alpha"))
     (writeDocument "/proj" ["a.txt"] "Test Run" exampleFiles).1
  /\ "/proj/wpr/test-run.md" = outFileOf "/proj" "Test Run"
  /\ promptSection "Test Run" +:+ fileSection "a.txt" "alpha"
     = promptSection "Test Run" +:+ sectionsOf "/proj" exampleFiles ["a.txt"]
  /\ onEnsureDir exampleFiles (Path.join "/proj" "wpr") = None
  /\ (forall f, In f ["a.txt"] ->
                exists t, onReadFile exampleFiles (Path.join "/proj" f) = inr t)
  /\ (writeDocument "/proj" ["a.txt"] "Test Run" exampleFiles).1
     = EnsureDir (Path.join "/proj" "wpr") :: readsOf "/proj" ["a.txt"]
         ++ [WriteFile "/proj/wpr/test-run.md"
               (promptSection "Test Run" +:+ fileSection "a.txt" "alpha")].
Proof.
  assert (H : In (WriteFile "/proj/wpr/test-run.md"
                    (promptSection "Test Run" +:+ fileSection "a.txt" "alpha"))
                 (writeDocument "/proj" ["a.txt"] "Test Run" exampleFiles).1)
    by (vm_compute; auto).
  split; [exact H|].
  exact (run_writes_document_only "/proj" exampleFiles ["a.txt"] "Test Run" _ _ H).
Defined.

End AssemblyMore.

(** ** From the scan to the document *)
Module EndToEnd.
Import Js JsFacts Path Spec SessionFacts ScanMore.

(** X13. What the run reads for the document are files the scan
    returned: when the search only returns documents of its index and
    every answer was offered, each selected path, joined to the working
    directory as the assembly does, is one of the paths of
    [getAllFiles], and so passes the blacklist and the whitelist. *)
Theorem selected_files_were_scanned (cwd : string) (config : Config)
    (entries : list Dirent) (allFiles : list string)
    (fuseSearch : list string -> string -> list FuseResult)
    (script : list (option string * string)) (f : string) :
  isAbsolute cwd = true ->
  forallb wellFormed entries = true ->
  getAllFiles cwd cwd config cwd (Some entries) = Some allFiles ->
  (forall docs query r, In r (fuseSearch docs query) -> In (item r) docs) ->
  Forall (offered cwd fuseSearch allFiles) script ->
  In f (selectedFiles (selectionLoop (map snd script) initialState)) ->
  In (join cwd f) allFiles /\ eligible config f = true.
Proof.
  intros Hcwd Hwf Hscan Hfuse Hscript Hf.
  assert (Hinv : selectionInvariant (candidatePaths cwd allFiles)
                   (selectionLoop (map snd script) initialState)).
  { apply (selectionLoop_invariant cwd fuseSearch allFiles Hfuse script Hscript).
    split; [constructor|intros x []]. }
  destruct Hinv as [_ Hsub]. apply Hsub in Hf.
  unfold candidatePaths in Hf. apply in_map_iff in Hf as [g [<- Hg]].
  rewrite (scanned_path_round_trip cwd config entries allFiles g) by assumption.
  split; [exact Hg|].
  apply ScanFacts.getAllFiles_eligible in Hscan.
  rewrite List.Forall_forall in Hscan. now apply Hscan.
Qed.

Lemma selected_files_were_scanned_witness :
  isAbsolute "/proj" = true
  /\ forallb wellFormed whitelistTree = true
  /\ getAllFiles "/proj" "/proj" defaultConfig "/proj" (Some whitelistTree)
     = Some ["/proj/src/app.js"; "/proj/src/util.js"; "/proj/lib/app.js"]
  /\ Forall (offered "/proj" substringSearch
               ["/proj/src/app.js"; "/proj/src/util.js"; "/proj/lib/app.js"])
       [(Some "util", "src/util.js"); (None, "lib/app.js"); (None, "Done")]
  /\ In "lib/app.js"
       (selectedFiles
          (selectionLoop
             (map snd [(Some "util", "src/util.js"); (None, "lib/app.js");
                       (None : option string, "Done")])
             initialState))
  /\ In (join "/proj" "lib/app.js")
       ["/proj/src/app.js"; "/proj/src/util.js"; "/proj/lib/app.js"]
  /\ eligible defaultConfig "lib/app.js" = true.
Proof.
  assert (H1 : isAbsolute "/proj" = true) by reflexivity.
  assert (H2 : forallb wellFormed whitelistTree = true) by reflexivity.
  assert (H3 : getAllFiles "/proj" "/proj" defaultConfig "/proj" (Some whitelistTree)
               = Some ["/proj/src/app.js"; "/proj/src/util.js"; "/proj/lib/app.js"])
    by reflexivity.
  assert (H4 : Forall (offered "/proj" substringSearch
                         ["/proj/src/app.js"; "/proj/src/util.js"; "/proj/lib/app.js"])
                 [(Some "util", "src/util.js"); (None, "lib/app.js"); (None, "Done")])
    by (repeat constructor; vm_compute; auto 6).
  assert (H5 : In "lib/app.js"
                 (selectedFiles
                    (selectionLoop
                       (map snd [(Some "util", "src/util.js"); (None, "lib/app.js");
                                 (None : option string, "Done")])
                       initialState))) by (vm_compute; auto).
  split; [exact H1|]. split; [exact H2|]. split; [exact H3|]. split; [exact H4|].
  split; [exact H5|].
  exact (selected_files_were_scanned "/proj" defaultConfig whitelistTree _
           substringSearch _ "lib/app.js" H1 H2 H3 substringSearch_items H4 H5).
Defined.

End EndToEnd.
